(** * hono-wide-logger: the wide-event middleware and its tail sampling

    A shallow embedding of [packages/wide-logger/src/middleware.ts],
    [sampling.ts] and [types.ts].  JavaScript objects used as open
    records are finite maps from property names to values; the per-request
    event is a record of optional fields; the middleware body is written in
    a small state-and-exception monad whose [try_catch] and [try_finally]
    follow the ECMAScript completion rules.  The middleware is given twice:
    first for options whose properties are missing or set and for context
    data that [JSON.stringify] serialises, then, in [Full], for any options
    object and any context data; the two agree where the first applies. *)

From Stdlib Require Import ZArith QArith String List Bool Lia.
From stdpp Require Import base option gmap strings.
Import ListNotations.

Local Open Scope string_scope.

(** ** JavaScript values *)

(** The payload of a context or metadata object is [any].  Numbers that
    occur as payload are kept as integers; truthiness and nullishness are
    the two observations the middleware makes on such values. *)
#[warnings="-register-all"]
Inductive JsValue : Type :=
| JUndefined
| JNull
| JBool (b : bool)
| JNum (n : Z)
| JStr (s : string)
| JObj (fields : list (string * JsValue)).

Definition str_truthy (s : string) : bool :=
  match s with
  | EmptyString => false
  | String _ _ => true
  end.

Definition num_truthy (n : Z) : bool := negb (n =? 0)%Z.

Definition truthy (v : JsValue) : bool :=
  match v with
  | JUndefined | JNull => false
  | JBool b => b
  | JNum n => num_truthy n
  | JStr s => str_truthy s
  | JObj _ => true
  end.

Definition nullish (v : JsValue) : bool :=
  match v with
  | JUndefined | JNull => true
  | _ => false
  end.

(** [a || b] and [a ?? b] on values. *)
Definition js_or (a b : JsValue) : JsValue := if truthy a then a else b.
Definition js_coalesce (a b : JsValue) : JsValue := if nullish a then b else a.

(** [a || b] where both sides are [string | undefined]. *)
Definition str_or (a b : option string) : option string :=
  match a with
  | Some s => if str_truthy s then Some s else b
  | None => b
  end.

(** An object literal [{ ...a, ...b }]: the keys of [b] win. *)
Definition spread (a b : gmap string JsValue) : gmap string JsValue := b ∪ a.

(** Spreading [undefined] contributes no key. *)
Definition spread_opt (a : option (gmap string JsValue)) : gmap string JsValue :=
  default ∅ a.

(** Reading a property that the object does not have gives [undefined]. *)
Definition prop (o : gmap string JsValue) (k : string) : JsValue :=
  default JUndefined (o !! k).

(** ** Errors *)

(** An [Error] instance: the three standard members, and whatever other
    own properties ([code], [retriable], ...) the thrower attached. *)
Record JsError : Type := mkJsError {
  err_name : string;
  err_message : string;
  err_stack : JsValue;
  err_props : gmap string JsValue
}.

(** ** types.ts *)

Inductive Category : Type := CatUser | CatBusiness | CatInfra | CatService.

Record WideEvent : Type := mkWideEvent {
  request_id : string;
  timestamp : string;
  method : string;
  path : string;
  query_params : option (gmap string string);
  status_code : option Z;
  duration_ms : option Z;
  client_ip : option string;
  user_agent : option string;
  content_type : option string;
  request_size_bytes : option Z;
  response_size_bytes : option Z;
  user : option (gmap string JsValue);
  business : option (gmap string JsValue);
  infra : option (gmap string JsValue);
  service : option (gmap string JsValue);
  error : option (gmap string JsValue)
}.

(** [event[category]] *)
Definition slot (category : Category) (event : WideEvent)
  : option (gmap string JsValue) :=
  match category with
  | CatUser => user event
  | CatBusiness => business event
  | CatInfra => infra event
  | CatService => service event
  end.

(** [event[category] = v] *)
Definition set_slot (category : Category) (v : gmap string JsValue)
    (event : WideEvent) : WideEvent :=
  match event with
  | mkWideEvent rid ts m p qp sc d ip ua ct rq rs u b i s e =>
    match category with
    | CatUser => mkWideEvent rid ts m p qp sc d ip ua ct rq rs (Some v) b i s e
    | CatBusiness => mkWideEvent rid ts m p qp sc d ip ua ct rq rs u (Some v) i s e
    | CatInfra => mkWideEvent rid ts m p qp sc d ip ua ct rq rs u b (Some v) s e
    | CatService => mkWideEvent rid ts m p qp sc d ip ua ct rq rs u b i (Some v) e
    end
  end.

(** [event.error = v] *)
Definition set_error (v : gmap string JsValue) (event : WideEvent) : WideEvent :=
  match event with
  | mkWideEvent rid ts m p qp sc d ip ua ct rq rs u b i s _ =>
    mkWideEvent rid ts m p qp sc d ip ua ct rq rs u b i s (Some v)
  end.

(** [event.status_code = n] *)
Definition set_status_code (n : Z) (event : WideEvent) : WideEvent :=
  match event with
  | mkWideEvent rid ts m p qp _ d ip ua ct rq rs u b i s e =>
    mkWideEvent rid ts m p qp (Some n) d ip ua ct rq rs u b i s e
  end.

(** [event.duration_ms = n] *)
Definition set_duration_ms (n : Z) (event : WideEvent) : WideEvent :=
  match event with
  | mkWideEvent rid ts m p qp sc _ ip ua ct rq rs u b i s e =>
    mkWideEvent rid ts m p qp sc (Some n) ip ua ct rq rs u b i s e
  end.

(** ** The context API of middleware.ts *)

(** [addContext: (category, data) => { event[category] = { ...event[category], ...data } }] *)
Definition addContext (category : Category) (data : gmap string JsValue)
    (event : WideEvent) : WideEvent :=
  set_slot category (spread (spread_opt (slot category event)) data) event.

(** The object literal of [addError] before [...metadata] is applied.
    [development] is [process.env.NODE_ENV === "development"]. *)
Definition derivedError (development : bool) (e : JsError) : gmap string JsValue :=
  <["stack" := if development then err_stack e else JUndefined]>
  (<["retriable" := js_coalesce (prop (err_props e) "retriable") (JBool false)]>
  (<["message" := JStr (err_message e)]>
  (<["code" := js_or (prop (err_props e) "code") (JStr "UNKNOWN")]>
  (<["type" := JStr (err_name e)]> ∅)))).

(** [addError: (error, metadata) => { event.error = { type, code, message,
    retriable, stack, ...metadata } }] *)
Definition addError (development : bool) (e : JsError)
    (metadata : option (gmap string JsValue)) (event : WideEvent) : WideEvent :=
  set_error (spread (derivedError development e) (spread_opt metadata)) event.

(** ** sampling.ts *)

(** [errorCode?: 400 | 500] *)
Inductive ErrorCode : Type := E400 | E500.

Definition errorCode_value (c : ErrorCode) : Z :=
  match c with E400 => 400 | E500 => 500 end.

Record SamplingOptions : Type := mkSamplingOptions {
  slowThresholdMs : Z;
  sampleRate : Q;
  errorCode : option ErrorCode
}.

(** [a < b] on the rationals, as a boolean. *)
Definition Qltb (a b : Q) : bool := negb (Qle_bool b a).

(** [options?.errorCode || 500] *)
Definition errorThreshold (options : SamplingOptions) : Z :=
  match errorCode options with
  | Some c => errorCode_value c
  | None => 500
  end.

(** [event.status_code && event.status_code >= (options?.errorCode || 500)] *)
Definition is_error_status (event : WideEvent) (options : SamplingOptions) : bool :=
  match status_code event with
  | Some sc => num_truthy sc && (errorThreshold options <=? sc)%Z
  | None => false
  end.

(** [event.duration_ms && event.duration_ms > options.slowThresholdMs] *)
Definition is_slow (event : WideEvent) (options : SamplingOptions) : bool :=
  match duration_ms event with
  | Some d => num_truthy d && (slowThresholdMs options <? d)%Z
  | None => false
  end.

(** [if (event.error)]: an object is truthy, [undefined] is not. *)
Definition has_error (event : WideEvent) : bool :=
  match error event with
  | Some _ => true
  | None => false
  end.

(** [defaultSampling(event, options)]; [random] is the value that
    [Math.random()] returns when the last line is reached. *)
Definition defaultSampling (event : WideEvent) (options : SamplingOptions)
    (random : Q) : bool :=
  if is_error_status event options then true
  else if has_error event then true
  else if is_slow event options then true
  else Qltb random (sampleRate options).

(** ** Collaborators and options (types.ts) *)

(** How a call ends: it returns a value, or it throws.  A rejected promise
    that is awaited counts as a throw. *)
Inductive Completion (A : Type) : Type :=
| Normal (a : A)
| Thrown (e : JsError).
Arguments Normal {A} a.
Arguments Thrown {A} e.

Module Logger.
(** Only [info] is called by the middleware.  [info line] is [None]
    when the call returns and [Some e] when it throws [e]. *)
Record t : Type := mk { info : string -> option JsError }.
End Logger.

Module Storage.
(** Only [set] is called by the middleware; the result is that of the
    awaited call. *)
Record t : Type := mk { set : string -> WideEvent -> option JsError }.
End Storage.

(** [SamplingFn = (event: WideEvent) => boolean] *)
Definition SamplingFn : Type := WideEvent -> Completion bool.

Module WideLoggerOptions.
Record t : Type := mk {
  logger : option Logger.t;
  storage : option Storage.t;
  sampling : option SamplingFn;
  slowThresholdMs : option Z;
  sampleRate : option Q;
  generateRequestId : option (unit -> string);
  requestIdHeader : option string;
  errorCode : option ErrorCode
}.
End WideLoggerOptions.

(** What the surrounding runtime answers during one request. *)
Record Env : Type := mkEnv {
  date_now : Z;                       (* [Date.now()] when the middleware is entered *)
  date_iso : string;                  (* [new Date().toISOString()] *)
  random_uuid : string;               (* [crypto.randomUUID()] *)
  math_random : Q;                    (* [Math.random()] *)
  node_env : option string;           (* [process.env.NODE_ENV] *)
  json_stringify : WideEvent -> string;   (* [JSON.stringify] on events *)
  console : Logger.t
}.

(** [process.env.NODE_ENV === "development"] *)
Definition development (env : Env) : bool :=
  match node_env env with
  | Some s => String.eqb s "development"
  | None => false
  end.

(** The part of Hono's context [c] that the middleware reads. *)
Record Context : Type := mkContext {
  req_method : string;                      (* [c.req.method] *)
  req_path : string;                        (* [c.req.path] *)
  req_header : string -> option string;     (* [c.req.header(name)] *)
  res_status : Z                            (* [c.res.status] on entry *)
}.

(** ** Downstream code *)

(** What the code behind [next()] does with the handle it obtains from
    [c.get("wide-logger")], how long it runs, and how it ends. *)
(* [getEvent()] hands out a copy [{ ...event }] and changes nothing, so it
   leaves no mark here. *)
Inductive HandlerOp : Type :=
| OpAddContext (category : Category) (data : gmap string JsValue)
| OpAddError (e : JsError) (metadata : option (gmap string JsValue)).

Inductive HandlerEnd : Type :=
| Returns (status : Z)      (* the response it produced has this status *)
| Throws (e : JsError).

Record Handler : Type := mkHandler {
  h_ops : list HandlerOp;
  h_elapsed : Z;
  h_end : HandlerEnd
}.

(** ** Observable effects *)

Inductive Effect : Type :=
| ESetVar (key : string)                           (* [c.set(key, handle)] *)
| EHeader (name value : string)                    (* [c.header(name, value)] *)
| ESample (event : WideEvent)                      (* the sampling policy is called *)
| EInfo (line : string)                            (* [logger.info(line)] *)
| EStorageSet (key : string) (event : WideEvent).  (* [storage.set(key, event)] *)

Record World : Type := mkWorld {
  w_event : WideEvent;       (* the [event] object of this request *)
  w_clock : Z;               (* what [Date.now()] returns now *)
  w_status : Z;              (* [c.res.status] *)
  w_trace : list Effect      (* calls made so far, oldest first *)
}.

(** ** A state-and-exception monad for the middleware body *)

Definition M (A : Type) : Type := World -> Completion A * World.

#[global] Instance M_ret : MRet M := fun A a w => (Normal a, w).
#[global] Instance M_bind : MBind M := fun A B f m w =>
  match m w with
  | (Normal a, w') => f a w'
  | (Thrown e, w') => (Thrown e, w')
  end.

Definition throw {A : Type} (e : JsError) : M A := fun w => (Thrown e, w).

(** [try { body } catch (error) { handler }] *)
Definition try_catch {A : Type} (body : M A) (handler : JsError -> M A) : M A :=
  fun w =>
    match body w with
    | (Normal a, w') => (Normal a, w')
    | (Thrown e, w') => handler e w'
    end.

(** [try { body } finally { finalizer }]: the finalizer always runs; when it
    completes normally the completion of [body] stands, and when it throws
    its own exception replaces that completion. *)
Definition try_finally {A : Type} (body : M A) (finalizer : M unit) : M A :=
  fun w =>
    match body w with
    | (r, w') =>
      match finalizer w' with
      | (Normal _, w'') => (r, w'')
      | (Thrown e, w'') => (Thrown e, w'')
      end
    end.

Definition get_event : M WideEvent := fun w => (Normal (w_event w), w).

Definition modify_event (f : WideEvent -> WideEvent) : M unit :=
  fun w => (Normal tt, mkWorld (f (w_event w)) (w_clock w) (w_status w) (w_trace w)).

Definition Date_now : M Z := fun w => (Normal (w_clock w), w).

Definition c_res_status : M Z := fun w => (Normal (w_status w), w).

Definition perform (e : Effect) : M unit :=
  fun w => (Normal tt, mkWorld (w_event w) (w_clock w) (w_status w) (w_trace w ++ [e])).

(** Calling something that returns or throws. *)
Definition call {A : Type} (r : Completion A) : M A := fun w => (r, w).

Definition call_void (r : option JsError) : M unit :=
  fun w => match r with
           | None => (Normal tt, w)
           | Some e => (Thrown e, w)
           end.

(** ** middleware.ts *)

Module InternalOptions.
(** [opts]: the options once the defaults are applied. *)
Record t : Type := mk {
  logger : Logger.t;
  storage : option Storage.t;
  sampling : option SamplingFn;
  slowThresholdMs : Z;
  sampleRate : Q;
  generateRequestId : unit -> string;
  requestIdHeader : string;
  errorCode : option ErrorCode
}.
End InternalOptions.

(** [defaultOptions], together with the [logger] entry that follows it in
    the literal of [opts] when no logger is given: [console]. *)
Definition defaultOptions (env : Env) : InternalOptions.t :=
  InternalOptions.mk (console env) None None 2000 (5 # 100)
    (fun _ => random_uuid env) "x-request-id" None.

(** [{ ...defaultOptions, logger: options?.logger ?? console, ...options }]:
    a property that [options] has wins, any other keeps its default.
    [storage], [sampling] and [errorCode] have no default.  Here a property
    is either missing or set; an options object with a property that holds
    [undefined] is handled by [Full.merge_options] below. *)
Definition merge_options (env : Env) (options : option WideLoggerOptions.t)
  : InternalOptions.t :=
  let d := defaultOptions env in
  match options with
  | None => d
  | Some o =>
    InternalOptions.mk
      (default (InternalOptions.logger d) (WideLoggerOptions.logger o))
      (WideLoggerOptions.storage o)
      (WideLoggerOptions.sampling o)
      (default (InternalOptions.slowThresholdMs d) (WideLoggerOptions.slowThresholdMs o))
      (default (InternalOptions.sampleRate d) (WideLoggerOptions.sampleRate o))
      (default (InternalOptions.generateRequestId d)
         (WideLoggerOptions.generateRequestId o))
      (default (InternalOptions.requestIdHeader d) (WideLoggerOptions.requestIdHeader o))
      (WideLoggerOptions.errorCode o)
  end.

(** [s || d] for a string [s] that may be [undefined]. *)
Definition str_or_default (s : option string) (d : string) : string :=
  match s with
  | Some x => if str_truthy x then x else d
  | None => d
  end.

(** [n || d] on numbers. *)
Definition Z_or (n d : Z) : Z := if num_truthy n then n else d.
Definition Q_or (q d : Q) : Q := if Qeq_bool q 0 then d else q.

(** [c.req.header(opts.requestIdHeader || "x-request-id") ||
     opts.generateRequestId?.() || crypto.randomUUID()] *)
Definition resolve_request_id (env : Env) (opts : InternalOptions.t)
    (c : Context) : string :=
  str_or_default
    (str_or
       (req_header c
          (str_or_default (Some (InternalOptions.requestIdHeader opts)) "x-request-id"))
       (Some (InternalOptions.generateRequestId opts tt)))
    (random_uuid env).

(** The initial [event] literal. *)
Definition initial_event (env : Env) (c : Context) (requestId : string) : WideEvent :=
  {| request_id := requestId;
     timestamp := date_iso env;
     method := req_method c;
     path := req_path c;
     query_params := None;
     status_code := None;
     duration_ms := None;
     client_ip := str_or (req_header c "x-forwarded-for") (req_header c "x-real-ip");
     user_agent := req_header c "user-agent";
     content_type := req_header c "Content-type";
     request_size_bytes := None;
     response_size_bytes := None;
     user := None;
     business := None;
     infra := None;
     service := None;
     error := None |}.

(** One call on the handle published under ["wide-logger"], as a change
    of the event it closes over. *)
Definition apply_op (env : Env) (op : HandlerOp) (event : WideEvent) : WideEvent :=
  match op with
  | OpAddContext category data => addContext category data event
  | OpAddError e metadata => addError (development env) e metadata event
  end.

Definition run_op (env : Env) (op : HandlerOp) : M unit :=
  modify_event (apply_op env op).

Fixpoint run_ops (env : Env) (ops : list HandlerOp) : M unit :=
  match ops with
  | [] => mret tt
  | op :: rest => run_op env op ;; run_ops env rest
  end.

Definition advance_clock (ms : Z) : M unit :=
  fun w => (Normal tt, mkWorld (w_event w) (w_clock w + ms)%Z (w_status w) (w_trace w)).

Definition set_res_status (status : Z) : M unit :=
  fun w => (Normal tt, mkWorld (w_event w) (w_clock w) status (w_trace w)).

(** [await next()] *)
Definition next (env : Env) (h : Handler) : M unit :=
  run_ops env (h_ops h) ;;
  advance_clock (h_elapsed h) ;;
  match h_end h with
  | Returns status => set_res_status status
  | Throws e => throw e
  end.

(** The options handed to [defaultSampling] in the [finally] block. *)
Definition sampling_options (opts : InternalOptions.t) : SamplingOptions :=
  {| slowThresholdMs := Z_or (InternalOptions.slowThresholdMs opts) 2000;
     sampleRate := Q_or (InternalOptions.sampleRate opts) (5 # 100);
     errorCode := InternalOptions.errorCode opts |}.

(** [opts.sampling ? opts.sampling(event) : defaultSampling(event, {...})] *)
Definition shouldLog (env : Env) (opts : InternalOptions.t) (event : WideEvent)
  : M bool :=
  perform (ESample event) ;;
  match InternalOptions.sampling opts with
  | Some f => call (f event)
  | None => mret (defaultSampling event (sampling_options opts) (math_random env))
  end.

(** The [try] block. *)
Definition try_block (env : Env) (h : Handler) (startTime : Z) : M unit :=
  next env h ;;
  status ← c_res_status ;
  modify_event (set_status_code status) ;;
  now ← Date_now ;
  modify_event (set_duration_ms (now - startTime)).

(** The [catch (error)] block. *)
Definition catch_block (env : Env) (startTime : Z) (e : JsError) : M unit :=
  modify_event (set_status_code 500) ;;
  now ← Date_now ;
  modify_event (set_duration_ms (now - startTime)) ;;
  modify_event (addError (development env) e None) ;;
  throw e.

(** The [finally] block, for an event that [JSON.stringify] serialises; the
    case where it throws is handled by [Full.finally_block] below. *)
Definition finally_block (env : Env) (opts : InternalOptions.t) (requestId : string)
  : M unit :=
  event ← get_event ;
  keep ← shouldLog env opts event ;
  if keep : bool then
    perform (EInfo (json_stringify env event)) ;;
    call_void (Logger.info (InternalOptions.logger opts) (json_stringify env event)) ;;
    match InternalOptions.storage opts with
    | Some s =>
      perform (EStorageSet requestId event) ;;
      call_void (Storage.set s requestId event)
    | None => mret tt
    end
  else mret tt.

(** [wideLogger(options)(c, next)], run from the moment the framework
    enters the middleware. *)
Definition wideLogger (options : option WideLoggerOptions.t) (env : Env)
    (c : Context) (h : Handler) : Completion unit * World :=
  let opts := merge_options env options in
  let startTime := date_now env in
  let requestId := resolve_request_id env opts c in
  let event := initial_event env c requestId in
  (perform (ESetVar "wide-logger") ;;
   perform (EHeader "x-request-id" requestId) ;;
   try_finally
     (try_catch (try_block env h startTime) (catch_block env startTime))
     (finally_block env opts requestId))
    (mkWorld event startTime (res_status c) []).

(** ** Reading a run *)

(** The events the sampling policy was called on, in order. *)
Fixpoint samples (tr : list Effect) : list WideEvent :=
  match tr with
  | [] => []
  | ESample ev :: rest => ev :: samples rest
  | _ :: rest => samples rest
  end.

(** The lines passed to [logger.info], in order. *)
Fixpoint infos (tr : list Effect) : list string :=
  match tr with
  | [] => []
  | EInfo line :: rest => line :: infos rest
  | _ :: rest => infos rest
  end.

(** The [storage.set] calls, in order. *)
Fixpoint stores (tr : list Effect) : list (string * WideEvent) :=
  match tr with
  | [] => []
  | EStorageSet k ev :: rest => (k, ev) :: stores rest
  | _ :: rest => stores rest
  end.

(** The response headers written with [c.header], in order. *)
Fixpoint headers (tr : list Effect) : list (string * string) :=
  match tr with
  | [] => []
  | EHeader n v :: rest => (n, v) :: headers rest
  | _ :: rest => headers rest
  end.

(** The event after the handler's calls on the handle. *)
Definition apply_ops (env : Env) (ops : list HandlerOp) (event : WideEvent)
  : WideEvent :=
  fold_left (fun ev op => apply_op env op ev) ops event.

(** The event as the [finally] block finds it. *)
Definition finalized_event (options : option WideLoggerOptions.t) (env : Env)
    (c : Context) (h : Handler) : WideEvent :=
  let opts := merge_options env options in
  let ev :=
    apply_ops env (h_ops h)
      (initial_event env c (resolve_request_id env opts c)) in
  match h_end h with
  | Returns status => set_duration_ms (h_elapsed h) (set_status_code status ev)
  | Throws e =>
    addError (development env) e None
      (set_duration_ms (h_elapsed h) (set_status_code 500 ev))
  end.

(** What the sampling policy answers on an event. *)
Definition sampling_result (env : Env) (opts : InternalOptions.t)
    (event : WideEvent) : Completion bool :=
  match InternalOptions.sampling opts with
  | Some f => f event
  | None => Normal (defaultSampling event (sampling_options opts) (math_random env))
  end.

(** How the [finally] block ends on an event: [None] when it completes,
    [Some e] when it throws [e]. *)
Definition disposition_result (env : Env) (opts : InternalOptions.t)
    (requestId : string) (event : WideEvent) : option JsError :=
  match sampling_result env opts event with
  | Thrown e => Some e
  | Normal false => None
  | Normal true =>
    match Logger.info (InternalOptions.logger opts) (json_stringify env event) with
    | Some e => Some e
    | None =>
      match InternalOptions.storage opts with
      | Some s => Storage.set s requestId event
      | None => None
      end
    end
  end.

(** ** The sampling order as the specification words it *)

(** Rule 1: [status_code] present and [>=] the error threshold. *)
Definition spec_rule_status (event : WideEvent) (options : SamplingOptions) : bool :=
  match status_code event with
  | Some sc => (errorThreshold options <=? sc)%Z
  | None => false
  end.

(** Rule 3 as worded: [duration_ms] present and [> slowThresholdMs]. *)
Definition spec_rule_slow (event : WideEvent) (options : SamplingOptions) : bool :=
  match duration_ms event with
  | Some d => (slowThresholdMs options <? d)%Z
  | None => false
  end.

(** Rule 3 with zero durations left out. *)
Definition rule_slow_nonzero (event : WideEvent) (options : SamplingOptions) : bool :=
  match duration_ms event with
  | Some d => negb (d =? 0)%Z && (slowThresholdMs options <? d)%Z
  | None => false
  end.

(** The four rules in order, first match wins. *)
Definition spec_sampling (event : WideEvent) (options : SamplingOptions)
    (random : Q) : bool :=
  if spec_rule_status event options then true
  else if has_error event then true
  else if spec_rule_slow event options then true
  else Qltb random (sampleRate options).

(** A plain finalized event: no error, status below the threshold, not slow. *)
Definition plain_event (event : WideEvent) (options : SamplingOptions) : bool :=
  negb (spec_rule_status event options) && negb (has_error event)
  && negb (spec_rule_slow event options).

(** ** The error code as the specification words it *)

(** [error.code] if the error has one, else ["UNKNOWN"]. *)
Definition spec_error_code (e : JsError) : JsValue :=
  match err_props e !! "code" with
  | Some v => v
  | None => JStr "UNKNOWN"
  end.

(** ** Sample data *)

Definition sample_env : Env :=
  {| date_now := 1700000000000;
     date_iso := "2024-01-15T10:23:45.612Z";
     random_uuid := "3f2c9a10-uuid";
     math_random := 1 # 100;
     node_env := None;
     json_stringify := fun ev => "{request_id:" ++ request_id ev ++ "}";
     console := Logger.mk (fun _ => None) |}.

Definition sample_context (header_name header_value : string) : Context :=
  {| req_method := "GET";
     req_path := "/users/42";
     req_header := fun n => if String.eqb n header_name then Some header_value else None;
     res_status := 200 |}.

Definition sample_error (message : string) : JsError :=
  {| err_name := "Error"; err_message := message;
     err_stack := JUndefined; err_props := ∅ |}.

Definition sample_event : WideEvent :=
  initial_event sample_env (sample_context "x-request-id" "abc") "abc".

Definition error_with_code (message : string) (code : JsValue) : JsError :=
  {| err_name := "Error"; err_message := message;
     err_stack := JUndefined; err_props := {["code" := code]} |}.

(** [wideLogger({ sampleRate: 0 })] *)
Definition rate_zero_options : WideLoggerOptions.t :=
  WideLoggerOptions.mk None None None None (Some 0%Q) None None None.

(** [wideLogger({ logger, storage, sampleRate: 1.0 })] *)
Definition log_everything_options (l : option Logger.t) (s : option Storage.t)
  : WideLoggerOptions.t :=
  WideLoggerOptions.mk l s None None (Some 1%Q) None None None.

(** A handler that answers 200 after 100 ms without touching the handle. *)
Definition quick_ok_handler : Handler := mkHandler [] 100 (Returns 200).

Definition working_storage : Storage.t := Storage.mk (fun _ _ => None).

Definition failing_storage : Storage.t :=
  Storage.mk (fun _ _ => Some (sample_error "store down")).

Definition failing_logger : Logger.t :=
  Logger.mk (fun _ => Some (sample_error "sink down")).

(** The calls the [finally] block makes on an event, in order. *)
Definition disposition_trace (env : Env) (opts : InternalOptions.t)
    (requestId : string) (event : WideEvent) : list Effect :=
  ESample event ::
  match sampling_result env opts event with
  | Normal true =>
    EInfo (json_stringify env event) ::
    match Logger.info (InternalOptions.logger opts) (json_stringify env event),
          InternalOptions.storage opts with
    | None, Some _ => [EStorageSet requestId event]
    | _, _ => []
    end
  | _ => []
  end.

(** How the [try]/[catch] statement ends. *)
Definition pending (h : Handler) : Completion unit :=
  match h_end h with
  | Returns _ => Normal tt
  | Throws e => Thrown e
  end.

(** ** More of the code: the other sampling.ts, and the example application *)

Module TierSampling.
(** The [sampling.ts] that also keeps VIP users.  Its options carry no
    [errorCode]; the status cutoff is the literal 500. *)
Record Options : Type := mk {
  slowThresholdMs : Z;
  sampleRate : Q
}.

(** [event.user?.tier === "enterprise" || event.user?.tier === "premium"] *)
Definition is_vip (event : WideEvent) : bool :=
  match user event with
  | Some u =>
    match u !! "tier" with
    | Some (JStr t) => String.eqb t "enterprise" || String.eqb t "premium"
    | _ => false
    end
  | None => false
  end.

Definition defaultSampling (event : WideEvent) (options : Options)
    (random : Q) : bool :=
  if match status_code event with
     | Some sc => num_truthy sc && (500 <=? sc)%Z
     | None => false
     end then true
  else if has_error event then true
  else if match duration_ms event with
          | Some d => num_truthy d && (slowThresholdMs options <? d)%Z
          | None => false
          end then true
  else if is_vip event then true
  else Qltb random (sampleRate options).
End TierSampling.

(** Example 3: [memoryStore = new Map()] behind [customStorage].  None of
    the three methods throws. *)
Definition customStorage : Storage.t := Storage.mk (fun _ _ => None).

(** [memoryStore.set(key, value)], [memoryStore.get(key)] and
    [memoryStore.delete(key)] *)
Definition memoryStore_set (key : string) (value : WideEvent)
    (store : gmap string WideEvent) : gmap string WideEvent :=
  <[key := value]> store.

Definition memoryStore_get (key : string) (store : gmap string WideEvent)
  : option WideEvent :=
  store !! key.

Definition memoryStore_delete (key : string) (store : gmap string WideEvent)
  : gmap string WideEvent :=
  delete key store.

(** The store once the [storage.set] calls of a run have been carried out. *)
Definition memoryStore_after (tr : list Effect) (store : gmap string WideEvent)
  : gmap string WideEvent :=
  fold_left (fun m kv => memoryStore_set (fst kv) (snd kv) m) (stores tr) store.

(** [wideLogger({ storage: customStorage, sampleRate: 1.0 })] *)
Definition app3_options : WideLoggerOptions.t :=
  WideLoggerOptions.mk None (Some customStorage) None None (Some 1%Q) None None None.

(** Example 4: keep all POSTs, all statuses from 400, half of the GETs and a
    tenth of the rest.  [random] is what [Math.random()] returns in the one
    branch that calls it. *)
Definition app4_sampling (random : Q) : SamplingFn :=
  fun event =>
    Normal
      (if String.eqb (method event) "POST" then true
       else if match status_code event with
               | Some sc => num_truthy sc && (400 <=? sc)%Z
               | None => false
               end then true
       else if String.eqb (method event) "GET" then Qltb random (1 # 2)
       else Qltb random (1 # 10)).

Definition app4_options (random : Q) : WideLoggerOptions.t :=
  WideLoggerOptions.mk None None (Some (app4_sampling random)) None None None None None.

(** A policy that keeps nothing, and one that throws. *)
Definition never_log_options : WideLoggerOptions.t :=
  WideLoggerOptions.mk None (Some working_storage) (Some (fun _ => Normal false))
    None (Some 1%Q) None None None.

Definition throwing_sampling_options : WideLoggerOptions.t :=
  WideLoggerOptions.mk None None (Some (fun _ => Thrown (sample_error "bad policy")))
    None None None None None.

(** ** Reading the event *)

(** What the middleware captures from the request before the handler runs. *)
Definition captured (event : WideEvent)
  : string * string * string * string * option (gmap string string)
    * option string * option string * option string * option Z * option Z :=
  (request_id event, timestamp event, method event, path event,
   query_params event, client_ip event, user_agent event, content_type event,
   request_size_bytes event, response_size_bytes event).

(** [event[category]?.[k]] *)
Definition context_value (category : Category) (k : string) (event : WideEvent)
  : option JsValue :=
  spread_opt (slot category event) !! k.

(** [event.error?.[k]] *)
Definition error_value (k : string) (event : WideEvent) : option JsValue :=
  spread_opt (error event) !! k.

Definition Category_eqb (a b : Category) : bool :=
  match a, b with
  | CatUser, CatUser | CatBusiness, CatBusiness
  | CatInfra, CatInfra | CatService, CatService => true
  | _, _ => false
  end.

(** Whether a call on the handle writes key [k] of [event[category]]. *)
Definition writes_key (category : Category) (k : string) (op : HandlerOp) : bool :=
  match op with
  | OpAddContext c data =>
    Category_eqb c category
    && match data !! k with Some _ => true | None => false end
  | OpAddError _ _ => false
  end.

Definition is_addError (op : HandlerOp) : bool :=
  match op with
  | OpAddError _ _ => true
  | OpAddContext _ _ => false
  end.

(** The header name the incoming id is read from:
    [opts.requestIdHeader || "x-request-id"]. *)
Definition request_id_header_read (opts : InternalOptions.t) : string :=
  str_or_default (Some (InternalOptions.requestIdHeader opts)) "x-request-id".

(** ** The middleware on any options object and any context data *)

(** The definitions above take an options object whose properties are either
    missing or set, and context data that [JSON.stringify] can serialise.
    The ones below drop both assumptions: a property may be there and hold
    [undefined] or [null], and [JSON.stringify(event)] may throw (a BigInt
    or a cycle in the context data). *)

(** A property of an object: not there, there with [undefined] or [null], or
    there with a value. *)
Inductive Key (A : Type) : Type :=
| Absent
| Nullish
| Given (a : A).
Arguments Absent {A}.
Arguments Nullish {A}.
Arguments Given {A} a.

Module OptionsObject.
(** The argument of [wideLogger], property by property. *)
Record t : Type := mk {
  logger : Key Logger.t;
  storage : Key Storage.t;
  sampling : Key SamplingFn;
  slowThresholdMs : Key Z;
  sampleRate : Key Q;
  generateRequestId : Key (unit -> string);
  requestIdHeader : Key string;
  errorCode : Key ErrorCode
}.
End OptionsObject.

Definition key_of_option {A : Type} (o : option A) : Key A :=
  match o with
  | Some a => Given a
  | None => Absent
  end.

(** An options object none of whose properties holds [undefined] or [null]. *)
Definition options_object (o : WideLoggerOptions.t) : OptionsObject.t :=
  OptionsObject.mk
    (key_of_option (WideLoggerOptions.logger o))
    (key_of_option (WideLoggerOptions.storage o))
    (key_of_option (WideLoggerOptions.sampling o))
    (key_of_option (WideLoggerOptions.slowThresholdMs o))
    (key_of_option (WideLoggerOptions.sampleRate o))
    (key_of_option (WideLoggerOptions.generateRequestId o))
    (key_of_option (WideLoggerOptions.requestIdHeader o))
    (key_of_option (WideLoggerOptions.errorCode o)).

(** One property of [{ p: base, ...options }]: a property that [options] has
    replaces [base], also when it holds [undefined]. *)
Definition spread_key {A : Type} (base : option A) (k : Key A) : option A :=
  match k with
  | Absent => base
  | Nullish => None
  | Given a => Some a
  end.

(** [options?.p ?? d] *)
Definition key_coalesce {A : Type} (k : Key A) (d : A) : A :=
  match k with
  | Given a => a
  | _ => d
  end.

(** What reading [.info] of [undefined] throws.  Name and message are the
    engine's. *)
Definition type_error : JsError :=
  {| err_name := "TypeError";
     err_message := "Cannot read properties of undefined (reading 'info')";
     err_stack := JUndefined;
     err_props := ∅ |}.

Module Full.

(** [opts = { ...defaultOptions, logger: options?.logger ?? console,
    ...options }]; any property of the result may be [undefined]. *)
Definition merge_options (env : Env) (options : option OptionsObject.t)
  : WideLoggerOptions.t :=
  match options with
  | None =>
    WideLoggerOptions.mk (Some (console env)) None None (Some 2000%Z)
      (Some (5 # 100)) (Some (fun _ => random_uuid env)) (Some "x-request-id") None
  | Some o =>
    WideLoggerOptions.mk
      (spread_key (Some (key_coalesce (OptionsObject.logger o) (console env)))
         (OptionsObject.logger o))
      (spread_key None (OptionsObject.storage o))
      (spread_key None (OptionsObject.sampling o))
      (spread_key (Some 2000%Z) (OptionsObject.slowThresholdMs o))
      (spread_key (Some (5 # 100)) (OptionsObject.sampleRate o))
      (spread_key (Some (fun _ => random_uuid env))
         (OptionsObject.generateRequestId o))
      (spread_key (Some "x-request-id") (OptionsObject.requestIdHeader o))
      (spread_key None (OptionsObject.errorCode o))
  end.

(** [c.req.header(opts.requestIdHeader || "x-request-id") ||
     opts.generateRequestId?.() || crypto.randomUUID()] *)
Definition resolve_request_id (env : Env) (opts : WideLoggerOptions.t)
    (c : Context) : string :=
  str_or_default
    (str_or
       (req_header c
          (str_or_default (WideLoggerOptions.requestIdHeader opts) "x-request-id"))
       (option_map (fun g => g tt) (WideLoggerOptions.generateRequestId opts)))
    (random_uuid env).

(** [{ slowThresholdMs: opts.slowThresholdMs || 2000,
       sampleRate: opts.sampleRate || 0.05, errorCode: opts.errorCode }] *)
Definition sampling_options (opts : WideLoggerOptions.t) : SamplingOptions :=
  {| slowThresholdMs :=
       match WideLoggerOptions.slowThresholdMs opts with
       | Some n => Z_or n 2000
       | None => 2000%Z
       end;
     sampleRate :=
       match WideLoggerOptions.sampleRate opts with
       | Some q => Q_or q (5 # 100)
       | None => (5 # 100)%Q
       end;
     errorCode := WideLoggerOptions.errorCode opts |}.

(** [JSON.stringify(event)]: it throws [e] when [throws event = Some e], and
    otherwise returns the text. *)
Definition JSON_stringify (env : Env) (throws : WideEvent -> option JsError)
    (event : WideEvent) : Completion string :=
  match throws event with
  | Some e => Thrown e
  | None => Normal (json_stringify env event)
  end.

(** What the sampling policy answers on an event. *)
Definition sampling_result (env : Env) (opts : WideLoggerOptions.t)
    (event : WideEvent) : Completion bool :=
  match WideLoggerOptions.sampling opts with
  | Some f => f event
  | None => Normal (defaultSampling event (sampling_options opts) (math_random env))
  end.

(** [opts.sampling ? opts.sampling(event) : defaultSampling(event, {...})] *)
Definition shouldLog (env : Env) (opts : WideLoggerOptions.t) (event : WideEvent)
  : M bool :=
  perform (ESample event) ;;
  match WideLoggerOptions.sampling opts with
  | Some f => call (f event)
  | None => mret (defaultSampling event (sampling_options opts) (math_random env))
  end.

(** The [finally] block.  In [opts.logger.info(JSON.stringify(event))] the
    member [opts.logger.info] is read first, then the argument is evaluated,
    then the call is made. *)
Definition finally_block (env : Env) (throws : WideEvent -> option JsError)
    (opts : WideLoggerOptions.t) (requestId : string) : M unit :=
  event ← get_event ;
  keep ← shouldLog env opts event ;
  if keep : bool then
    match WideLoggerOptions.logger opts with
    | None => throw type_error
    | Some l =>
      line ← call (JSON_stringify env throws event) ;
      perform (EInfo line) ;;
      call_void (Logger.info l line) ;;
      match WideLoggerOptions.storage opts with
      | Some s =>
        perform (EStorageSet requestId event) ;;
        call_void (Storage.set s requestId event)
      | None => mret tt
      end
    end
  else mret tt.

(** [wideLogger(options)(c, next)] *)
Definition wideLogger (options : option OptionsObject.t) (env : Env)
    (throws : WideEvent -> option JsError) (c : Context) (h : Handler)
  : Completion unit * World :=
  let opts := merge_options env options in
  let startTime := date_now env in
  let requestId := resolve_request_id env opts c in
  let event := initial_event env c requestId in
  (perform (ESetVar "wide-logger") ;;
   perform (EHeader "x-request-id" requestId) ;;
   try_finally
     (try_catch (try_block env h startTime) (catch_block env startTime))
     (finally_block env throws opts requestId))
    (mkWorld event startTime (res_status c) []).

(** The event as the [finally] block finds it. *)
Definition finalized_event (options : option OptionsObject.t) (env : Env)
    (c : Context) (h : Handler) : WideEvent :=
  let ev :=
    apply_ops env (h_ops h)
      (initial_event env c (resolve_request_id env (merge_options env options) c)) in
  match h_end h with
  | Returns status => set_duration_ms (h_elapsed h) (set_status_code status ev)
  | Throws e =>
    addError (development env) e None
      (set_duration_ms (h_elapsed h) (set_status_code 500 ev))
  end.

(** How the [finally] block ends on an event: [None] when it completes,
    [Some e] when it throws [e]. *)
Definition disposition_result (env : Env) (throws : WideEvent -> option JsError)
    (opts : WideLoggerOptions.t) (requestId : string) (event : WideEvent)
  : option JsError :=
  match sampling_result env opts event with
  | Thrown e => Some e
  | Normal false => None
  | Normal true =>
    match WideLoggerOptions.logger opts with
    | None => Some type_error
    | Some l =>
      match throws event with
      | Some e => Some e
      | None =>
        match Logger.info l (json_stringify env event) with
        | Some e => Some e
        | None =>
          match WideLoggerOptions.storage opts with
          | Some s => Storage.set s requestId event
          | None => None
          end
        end
      end
    end
  end.

(** The calls the [finally] block makes on an event, in order. *)
Definition disposition_trace (env : Env) (throws : WideEvent -> option JsError)
    (opts : WideLoggerOptions.t) (requestId : string) (event : WideEvent)
  : list Effect :=
  ESample event ::
  match sampling_result env opts event with
  | Normal true =>
    match WideLoggerOptions.logger opts, throws event with
    | Some l, None =>
      EInfo (json_stringify env event) ::
      match Logger.info l (json_stringify env event),
            WideLoggerOptions.storage opts with
      | None, Some _ => [EStorageSet requestId event]
      | _, _ => []
      end
    | _, _ => []
    end
  | _ => []
  end.

(** Whether [logger.info] is reached on an event the policy keeps: a logger
    is set and [JSON.stringify(event)] returns. *)
Definition emits (throws : WideEvent -> option JsError)
    (opts : WideLoggerOptions.t) (event : WideEvent) : bool :=
  match WideLoggerOptions.logger opts, throws event with
  | Some _, None => true
  | _, _ => false
  end.

End Full.

(** A property that holds [undefined] or [null], taken out of the object. *)
Definition unset_key {A : Type} (k : Key A) : Key A :=
  match k with
  | Nullish => Absent
  | _ => k
  end.

(** The options object with every such property but [logger] taken out. *)
Definition unset_all_but_logger (o : OptionsObject.t) : OptionsObject.t :=
  OptionsObject.mk (OptionsObject.logger o)
    (unset_key (OptionsObject.storage o))
    (unset_key (OptionsObject.sampling o))
    (unset_key (OptionsObject.slowThresholdMs o))
    (unset_key (OptionsObject.sampleRate o))
    (unset_key (OptionsObject.generateRequestId o))
    (unset_key (OptionsObject.requestIdHeader o))
    (unset_key (OptionsObject.errorCode o)).

(** [JSON.stringify] never throws. *)
Definition serialisable : WideEvent -> option JsError := fun _ => None.

(** [JSON.stringify] throws on every event, as on one that holds a BigInt. *)
Definition unserialisable : WideEvent -> option JsError :=
  fun _ =>
    Some {| err_name := "TypeError";
            err_message := "Do not know how to serialize a BigInt";
            err_stack := JUndefined;
            err_props := ∅ |}.

(** [wideLogger({ logger: undefined, storage, sampleRate: 1.0 })] *)
Definition undefined_logger_options : OptionsObject.t :=
  OptionsObject.mk Nullish (Given working_storage) Absent Absent (Given 1%Q)
    Absent Absent Absent.

(** [wideLogger({ slowThresholdMs: 0 })] *)
Definition slow_zero_options : WideLoggerOptions.t :=
  WideLoggerOptions.mk None None None (Some 0%Z) None None None None.

(** The sample runtime with another value for [Math.random()]. *)
Definition sample_env_with_draw (draw : Q) : Env :=
  {| date_now := date_now sample_env;
     date_iso := date_iso sample_env;
     random_uuid := random_uuid sample_env;
     math_random := draw;
     node_env := node_env sample_env;
     json_stringify := json_stringify sample_env;
     console := console sample_env |}.

(** * Properties *)

(** ** The monad and the handler *)

Lemma world_eta (w : World) :
  mkWorld (w_event w) (w_clock w) (w_status w) (w_trace w) = w.
Proof. by destruct w. Qed.

Lemma run_ops_spec (env : Env) (ops : list HandlerOp) (w : World) :
  run_ops env ops w =
  (Normal tt, mkWorld (apply_ops env ops (w_event w)) (w_clock w) (w_status w) (w_trace w)).
Proof.
  revert w. induction ops as [|op ops IH]; intros w.
  - cbn. by rewrite world_eta.
  - cbn [run_ops]. unfold mbind, M_bind, run_op, modify_event.
    rewrite IH. reflexivity.
Qed.

Lemma try_statement_spec (env : Env) (h : Handler) (start : Z) (w : World) :
  try_catch (try_block env h start) (catch_block env start) w =
  (pending h,
   mkWorld
     (match h_end h with
      | Returns status =>
        set_duration_ms (w_clock w + h_elapsed h - start)
          (set_status_code status (apply_ops env (h_ops h) (w_event w)))
      | Throws e =>
        addError (development env) e None
          (set_duration_ms (w_clock w + h_elapsed h - start)
             (set_status_code 500 (apply_ops env (h_ops h) (w_event w))))
      end)
     (w_clock w + h_elapsed h)
     (match h_end h with Returns status => status | Throws _ => w_status w end)
     (w_trace w)).
Proof.
  unfold try_catch, try_block, catch_block, next, pending.
  unfold mbind, M_bind. rewrite run_ops_spec.
  destruct (h_end h); reflexivity.
Qed.

Lemma finally_block_spec (env : Env) (opts : InternalOptions.t) (rid : string)
    (w : World) :
  finally_block env opts rid w =
  (match disposition_result env opts rid (w_event w) with
   | Some e => Thrown e
   | None => Normal tt
   end,
   mkWorld (w_event w) (w_clock w) (w_status w)
     (w_trace w ++ disposition_trace env opts rid (w_event w))).
Proof.
  unfold finally_block, shouldLog, disposition_result, disposition_trace,
    sampling_result.
  unfold mbind, M_bind, mret, M_ret, get_event, perform, call, call_void.
  cbn.
  destruct (InternalOptions.sampling opts) as [f|]; cbn.
  - destruct (f (w_event w)) as [[|]|e]; cbn; try reflexivity.
    destruct (Logger.info _ _); cbn; [by rewrite <- app_assoc|].
    destruct (InternalOptions.storage opts) as [s|]; cbn.
    + destruct (Storage.set s _ _); cbn; by rewrite <- !app_assoc.
    + by rewrite <- !app_assoc.
  - destruct (defaultSampling _ _ _); cbn; try reflexivity.
    destruct (Logger.info _ _); cbn; [by rewrite <- app_assoc|].
    destruct (InternalOptions.storage opts) as [s|]; cbn.
    + destruct (Storage.set s _ _); cbn; by rewrite <- !app_assoc.
    + by rewrite <- !app_assoc.
Qed.

(** The whole run, read off in one equation: the event the [finally] block
    sees, the calls made, and the completion. *)
Lemma wideLogger_run (options : option WideLoggerOptions.t) (env : Env)
    (c : Context) (h : Handler) :
  wideLogger options env c h =
  let opts := merge_options env options in
  let rid := resolve_request_id env opts c in
  let ev := finalized_event options env c h in
  (match disposition_result env opts rid ev with
   | Some e => Thrown e
   | None => pending h
   end,
   mkWorld ev (date_now env + h_elapsed h)
     (match h_end h with Returns status => status | Throws _ => res_status c end)
     ([ESetVar "wide-logger"; EHeader "x-request-id" rid]
        ++ disposition_trace env opts rid ev)).
Proof.
  unfold wideLogger, try_finally.
  unfold mbind at 1 2, M_bind at 1 2, perform at 1 2. cbn [w_event w_clock w_status w_trace app].
  rewrite try_statement_spec. cbn [w_event w_clock w_status w_trace].
  rewrite finally_block_spec. cbn [w_event w_clock w_status w_trace].
  rewrite Z.add_simpl_l.
  unfold finalized_event.
  destruct (h_end h); cbn zeta;
    destruct (disposition_result _ _ _ _); reflexivity.
Qed.

(** ** Object spread and the event's fields *)

Lemma spread_lookup (a b : gmap string JsValue) (k : string) :
  spread a b !! k = match b !! k with Some v => Some v | None => a !! k end.
Proof.
  unfold spread. rewrite lookup_union.
  destruct (b !! k), (a !! k); reflexivity.
Qed.

Lemma spread_empty_l (b : gmap string JsValue) : spread ∅ b = b.
Proof. apply map_eq. intros k. rewrite spread_lookup. by destruct (b !! k). Qed.

Lemma slot_set_slot_same (category : Category) (v : gmap string JsValue)
    (event : WideEvent) :
  slot category (set_slot category v event) = Some v.
Proof. by destruct event, category. Qed.

Lemma slot_set_slot_other (category other : Category) (v : gmap string JsValue)
    (event : WideEvent) :
  other ≠ category -> slot other (set_slot category v event) = slot other event.
Proof. by destruct event, category, other. Qed.

Lemma slot_set_error (category : Category) (v : gmap string JsValue)
    (event : WideEvent) :
  slot category (set_error v event) = slot category event.
Proof. by destruct event, category. Qed.

Lemma derivedError_type (dev : bool) (e : JsError) :
  derivedError dev e !! "type" = Some (JStr (err_name e)).
Proof. unfold derivedError. by simplify_map_eq. Qed.

Lemma derivedError_code (dev : bool) (e : JsError) :
  derivedError dev e !! "code" =
  Some (js_or (prop (err_props e) "code") (JStr "UNKNOWN")).
Proof. unfold derivedError. by simplify_map_eq. Qed.

Lemma derivedError_message (dev : bool) (e : JsError) :
  derivedError dev e !! "message" = Some (JStr (err_message e)).
Proof. unfold derivedError. by simplify_map_eq. Qed.

Lemma derivedError_retriable (dev : bool) (e : JsError) :
  derivedError dev e !! "retriable" =
  Some (js_coalesce (prop (err_props e) "retriable") (JBool false)).
Proof. unfold derivedError. by simplify_map_eq. Qed.

Lemma derivedError_stack (dev : bool) (e : JsError) :
  derivedError dev e !! "stack" =
  Some (if dev then err_stack e else JUndefined).
Proof. unfold derivedError. by simplify_map_eq. Qed.

Lemma error_addError (dev : bool) (e : JsError)
    (metadata : option (gmap string JsValue)) (event : WideEvent) :
  error (addError dev e metadata event) =
  Some (spread (derivedError dev e) (spread_opt metadata)).
Proof. by destruct event. Qed.

(** ** C10: each operation of the handle touches its own field only *)

(** C10.  [addContext(cat, data)] changes only [event[cat]]: the three other
    category slots and every other field of the event, among them
    [request_id], [timestamp], [method], [path], [status_code] and
    [duration_ms], keep their values.  [addError] changes only [error]: the
    four category slots and every other field, in particular [status_code],
    keep their values. *)
Theorem context_api_frame (category other : Category)
    (data : gmap string JsValue) (dev : bool) (e : JsError)
    (metadata : option (gmap string JsValue)) (event : WideEvent) :
  other ≠ category ->
  let ev1 := addContext category data event in
  let ev2 := addError dev e metadata event in
  (slot other ev1 = slot other event
   ∧ request_id ev1 = request_id event ∧ timestamp ev1 = timestamp event
   ∧ method ev1 = method event ∧ path ev1 = path event
   ∧ status_code ev1 = status_code event ∧ duration_ms ev1 = duration_ms event
   ∧ query_params ev1 = query_params event ∧ client_ip ev1 = client_ip event
   ∧ user_agent ev1 = user_agent event ∧ content_type ev1 = content_type event
   ∧ request_size_bytes ev1 = request_size_bytes event
   ∧ response_size_bytes ev1 = response_size_bytes event
   ∧ error ev1 = error event)
  ∧ (slot category ev2 = slot category event ∧ slot other ev2 = slot other event
     ∧ request_id ev2 = request_id event ∧ timestamp ev2 = timestamp event
     ∧ method ev2 = method event ∧ path ev2 = path event
     ∧ status_code ev2 = status_code event ∧ duration_ms ev2 = duration_ms event
     ∧ query_params ev2 = query_params event ∧ client_ip ev2 = client_ip event
     ∧ user_agent ev2 = user_agent event ∧ content_type ev2 = content_type event
     ∧ request_size_bytes ev2 = request_size_bytes event
     ∧ response_size_bytes ev2 = response_size_bytes event).
Proof.
  intros Hne ev1 ev2. subst ev1 ev2. split.
  - split.
    + unfold addContext. by apply slot_set_slot_other.
    + destruct event, category; cbn; repeat split.
  - split; [|split].
    + unfold addError. apply slot_set_error.
    + unfold addError. apply slot_set_error.
    + destruct event; cbn; repeat split.
Qed.

Lemma context_api_frame_witness :
  let event :=
    set_status_code 201
      (initial_event sample_env (sample_context "x-request-id" "abc") "abc") in
  slot CatBusiness (addContext CatUser {["id" := JStr "123"]} event) = None
  ∧ status_code (addError false (sample_error "boom") None event) = Some 201%Z.
Proof.
  pose proof (context_api_frame CatUser CatBusiness {["id" := JStr "123"]}
                false (sample_error "boom") None
                (set_status_code 201
                   (initial_event sample_env (sample_context "x-request-id" "abc") "abc"))
                ltac:(discriminate)) as H.
  cbv zeta in H. destruct H as [[H1 _] [_ [_ [_ [_ [_ [_ [H2 _]]]]]]]].
  split.
  - rewrite H1. reflexivity.
  - rewrite H2. reflexivity.
Defined.

(** ** C5: two merges into one category *)

(** C5.  After [addContext(cat, data1)] and then [addContext(cat, data2)]
    the slot [event[cat]] is [{ ...old, ...data1, ...data2 }], where [old]
    is what the slot held before; on a slot that was absent this is
    [{ ...data1, ...data2 }].  A key of [data2] has [data2]'s value, a key
    of [data1] alone keeps [data1]'s value, and every key the slot had
    before is still there. *)
Theorem addContext_twice (category : Category)
    (data1 data2 : gmap string JsValue) (event : WideEvent) :
  ∃ m : gmap string JsValue,
    slot category (addContext category data2 (addContext category data1 event))
    = Some m
    ∧ m = spread (spread (spread_opt (slot category event)) data1) data2
    ∧ (slot category event = None -> m = spread data1 data2)
    ∧ (∀ (k : string) (v : JsValue), data2 !! k = Some v -> m !! k = Some v)
    ∧ (∀ (k : string) (v : JsValue),
          data2 !! k = None -> data1 !! k = Some v -> m !! k = Some v)
    ∧ (∀ k : string,
          is_Some (spread_opt (slot category event) !! k) -> is_Some (m !! k)).
Proof.
  eexists. split; [|split; [reflexivity|]].
  - unfold addContext at 1. rewrite slot_set_slot_same.
    unfold addContext. rewrite slot_set_slot_same. reflexivity.
  - split; [|split; [|split]].
    + intros ->. cbn. by rewrite spread_empty_l.
    + intros k v Hk. rewrite spread_lookup, Hk. reflexivity.
    + intros k v Hk2 Hk1. rewrite !spread_lookup, Hk2, Hk1. reflexivity.
    + intros k [v Hv]. rewrite !spread_lookup.
      destruct (data2 !! k); [eauto|].
      destruct (data1 !! k); [eauto|].
      rewrite Hv. eauto.
Qed.

Lemma addContext_twice_witness :
  slot CatUser
    (addContext CatUser {["id" := JStr "456"]}
       (addContext CatUser {["id" := JStr "123"; "tier" := JStr "premium"]}
          (initial_event sample_env (sample_context "x-request-id" "abc") "abc")))
  = Some {["id" := JStr "456"; "tier" := JStr "premium"]}.
Proof.
  destruct (addContext_twice CatUser
              {["id" := JStr "123"; "tier" := JStr "premium"]}
              {["id" := JStr "456"]}
              (initial_event sample_env (sample_context "x-request-id" "abc") "abc"))
    as [m [Hm [_ [Hfresh _]]]].
  rewrite Hm, (Hfresh eq_refl). f_equal.
Defined.

(** ** C6: what [addError] records *)

(** C6, as the code has it.  [addError(error, metadata)] sets [event.error]
    to an object in which every key of [metadata] has [metadata]'s value,
    and in which, unless [metadata] has the key, [type] is the error's name,
    [message] is the error's message, [code] is [error.code] when that value
    is truthy and ["UNKNOWN"] otherwise, and [retriable] is
    [error.retriable] unless that value is [undefined] or [null], in which
    case it is [false]. *)
Theorem addError_details (dev : bool) (e : JsError)
    (metadata : option (gmap string JsValue)) (event : WideEvent) :
  ∃ m : gmap string JsValue,
    error (addError dev e metadata event) = Some m
    ∧ (∀ (k : string) (v : JsValue),
          spread_opt metadata !! k = Some v -> m !! k = Some v)
    ∧ (spread_opt metadata !! "type" = None ->
       m !! "type" = Some (JStr (err_name e)))
    ∧ (spread_opt metadata !! "message" = None ->
       m !! "message" = Some (JStr (err_message e)))
    ∧ (spread_opt metadata !! "code" = None ->
       m !! "code" =
       Some (if truthy (prop (err_props e) "code")
             then prop (err_props e) "code" else JStr "UNKNOWN"))
    ∧ (spread_opt metadata !! "retriable" = None ->
       m !! "retriable" =
       Some (if nullish (prop (err_props e) "retriable")
             then JBool false else prop (err_props e) "retriable")).
Proof.
  eexists. split; [apply error_addError|].
  split; [|split; [|split; [|split]]].
  - intros k v Hk. by rewrite spread_lookup, Hk.
  - intros Hk. by rewrite spread_lookup, Hk, derivedError_type.
  - intros Hk. by rewrite spread_lookup, Hk, derivedError_message.
  - intros Hk. by rewrite spread_lookup, Hk, derivedError_code.
  - intros Hk. by rewrite spread_lookup, Hk, derivedError_retriable.
Qed.

Lemma addError_details_witness :
  ∃ m : gmap string JsValue,
    error (addError false (error_with_code "declined" (JStr "card_declined"))
             (Some {["retriable" := JBool true]}) sample_event) = Some m
    ∧ m !! "code" = Some (JStr "card_declined")
    ∧ m !! "retriable" = Some (JBool true).
Proof.
  destruct (addError_details false (error_with_code "declined" (JStr "card_declined"))
              (Some {["retriable" := JBool true]}) sample_event)
    as [m [Hm [Hmeta [_ [_ [Hcode _]]]]]].
  exists m. split; [exact Hm|]. split.
  - rewrite (Hcode eq_refl). reflexivity.
  - apply Hmeta. reflexivity.
Defined.

(** An error whose [code] is the empty string has a code, and the recorded
    code is ["UNKNOWN"], not that code. *)
Lemma addError_empty_code :
  let e := error_with_code "boom" (JStr "") in
  err_props e !! "code" = Some (JStr "")
  ∧ ∃ m : gmap string JsValue,
      error (addError false e None sample_event) = Some m
      ∧ m !! "code" = Some (JStr "UNKNOWN")
      ∧ m !! "code" ≠ Some (spec_error_code e).
Proof.
  cbv zeta. split; [reflexivity|].
  eexists. split; [apply error_addError|].
  split; [reflexivity|]. discriminate.
Qed.

(** ** C8: a second [addError] *)

(** C8, as the code has it.  A second [addError] call replaces the error
    substructure: the event is the one a single call with the newest error
    and its metadata gives, so [type], [code], [message], [retriable] and
    [stack] are derived from the newest error, the metadata of the second
    call is on top, and nothing recorded by the first call is kept. *)
Theorem addError_twice (dev : bool) (e1 e2 : JsError)
    (metadata1 metadata2 : option (gmap string JsValue)) (event : WideEvent) :
  addError dev e2 metadata2 (addError dev e1 metadata1 event)
  = addError dev e2 metadata2 event
  ∧ error (addError dev e2 metadata2 (addError dev e1 metadata1 event))
    = Some (spread (derivedError dev e2) (spread_opt metadata2))
  ∧ ∀ k : string,
      spread (derivedError dev e2) (spread_opt metadata2) !! k
      = match spread_opt metadata2 !! k with
        | Some v => Some v
        | None => derivedError dev e2 !! k
        end.
Proof.
  split; [by destruct event|]. split.
  - apply error_addError.
  - intros k. apply spread_lookup.
Qed.

(** Metadata recorded by the first call is gone after the second. *)
Lemma addError_second_call_drops_metadata :
  let ev1 :=
    addError false (sample_error "first") (Some {["order_id" := JStr "ord_456"]})
      sample_event in
  let ev2 := addError false (sample_error "second") None ev1 in
  (∃ m, error ev1 = Some m ∧ m !! "order_id" = Some (JStr "ord_456"))
  ∧ (∃ m, error ev2 = Some m ∧ m !! "order_id" = None).
Proof.
  cbv zeta. split; eexists; (split; [apply error_addError|reflexivity]).
Qed.

(** ** C2: the order of the default sampling policy *)

Lemma Qltb_lt (a b : Q) : Qltb a b = true <-> (a < b)%Q.
Proof.
  unfold Qltb. rewrite negb_true_iff. split.
  - intros H. apply Qnot_le_lt. intros Hle.
    apply Qle_bool_iff in Hle. congruence.
  - intros H. destruct (Qle_bool b a) eqn:E; [|reflexivity].
    apply Qle_bool_iff in E. exfalso. exact (Qlt_not_le _ _ H E).
Qed.

Lemma errorThreshold_pos (options : SamplingOptions) :
  (0 < errorThreshold options)%Z.
Proof. unfold errorThreshold. destruct (errorCode options) as [[|]|]; cbn; lia. Qed.

(** The truthiness test on [status_code] never changes the first rule. *)
Lemma is_error_status_spec (event : WideEvent) (options : SamplingOptions) :
  is_error_status event options = spec_rule_status event options.
Proof.
  unfold is_error_status, spec_rule_status, num_truthy.
  destruct (status_code event) as [sc|]; [|reflexivity].
  pose proof (errorThreshold_pos options) as Hpos.
  destruct (Z.eqb_spec sc 0) as [->|_]; cbn; [|reflexivity].
  symmetry. apply Z.leb_gt. exact Hpos.
Qed.

(** The truthiness test on [duration_ms] leaves zero durations out. *)
Lemma is_slow_spec (event : WideEvent) (options : SamplingOptions) :
  is_slow event options = rule_slow_nonzero event options.
Proof. reflexivity. Qed.

Lemma rule_slow_nonneg_threshold (event : WideEvent) (options : SamplingOptions) :
  (0 <= slowThresholdMs options)%Z ->
  rule_slow_nonzero event options = spec_rule_slow event options.
Proof.
  intros Hnn. unfold rule_slow_nonzero, spec_rule_slow.
  destruct (duration_ms event) as [d|]; [|reflexivity].
  destruct (Z.eqb_spec d 0) as [->|_]; cbn; [|reflexivity].
  symmetry. apply Z.ltb_ge. exact Hnn.
Qed.

Lemma defaultSampling_nonneg_threshold (event : WideEvent)
    (options : SamplingOptions) (random : Q) :
  (0 <= slowThresholdMs options)%Z ->
  defaultSampling event options random = spec_sampling event options random.
Proof.
  intros Hnn. unfold defaultSampling, spec_sampling.
  by rewrite is_error_status_spec, is_slow_spec, rule_slow_nonneg_threshold.
Qed.

(** [defaultSampling] as the code has it.  It decides in this order, first
    match wins: true if [status_code] is present and [>=] the configured
    error threshold ([errorCode], 500 when it is not given); otherwise true
    if the error substructure is present; otherwise true if [duration_ms] is
    present, not zero and [> slowThresholdMs]; otherwise true exactly when
    the random draw is [< sampleRate].  For a threshold that is not negative
    the third rule is the one the specification words. *)
Theorem defaultSampling_order (event : WideEvent) (options : SamplingOptions)
    (random : Q) :
  defaultSampling event options random
  = (if spec_rule_status event options then true
     else if has_error event then true
     else if rule_slow_nonzero event options then true
     else Qltb random (sampleRate options))
  ∧ errorThreshold options
    = match errorCode options with
      | Some E400 => 400%Z
      | Some E500 => 500%Z
      | None => 500%Z
      end
  ∧ (Qltb random (sampleRate options) = true <-> (random < sampleRate options)%Q)
  ∧ ((0 <= slowThresholdMs options)%Z ->
     defaultSampling event options random = spec_sampling event options random).
Proof.
  split; [|split; [|split]].
  - unfold defaultSampling. by rewrite is_error_status_spec, is_slow_spec.
  - unfold errorThreshold. by destruct (errorCode options) as [[|]|].
  - apply Qltb_lt.
  - apply defaultSampling_nonneg_threshold.
Qed.

Lemma defaultSampling_order_witness :
  defaultSampling
    (set_duration_ms 3000 (set_status_code 200 sample_event))
    (mkSamplingOptions 2000 (5 # 100) None) (1 # 2)
  = spec_sampling
      (set_duration_ms 3000 (set_status_code 200 sample_event))
      (mkSamplingOptions 2000 (5 # 100) None) (1 # 2).
Proof.
  apply (defaultSampling_order
           (set_duration_ms 3000 (set_status_code 200 sample_event))
           (mkSamplingOptions 2000 (5 # 100) None) (1 # 2)).
  cbn. lia.
Defined.

(** A finalized event that took 0 ms, under a negative slow threshold: the
    third rule as worded keeps it, the code leaves it to the random draw. *)
Lemma defaultSampling_zero_duration :
  let event := set_duration_ms 0 (set_status_code 200 sample_event) in
  let options := mkSamplingOptions (-1) 0 None in
  duration_ms event = Some 0%Z
  ∧ spec_rule_slow event options = true
  ∧ spec_sampling event options (1 # 2) = true
  ∧ defaultSampling event options (1 # 2) = false.
Proof. cbv zeta. repeat split. Qed.

(** ** C4: the sample rate the middleware hands to the policy *)

(** On a plain event the policy is the comparison of the draw with the rate. *)
Lemma defaultSampling_plain (event : WideEvent) (options : SamplingOptions)
    (random : Q) :
  plain_event event options = true ->
  defaultSampling event options random = Qltb random (sampleRate options).
Proof.
  intros Hplain. unfold plain_event in Hplain.
  apply andb_prop in Hplain as [Hplain Hslow].
  apply andb_prop in Hplain as [Hstatus Herr].
  apply negb_true_iff in Hstatus, Herr, Hslow.
  unfold defaultSampling.
  rewrite is_error_status_spec, Hstatus, Herr, is_slow_spec.
  unfold rule_slow_nonzero. unfold spec_rule_slow in Hslow.
  destruct (duration_ms event) as [d|]; [|reflexivity].
  by rewrite Hslow, andb_false_r.
Qed.

(** Whatever the event, a draw below the rate keeps it. *)
Lemma defaultSampling_draw_below_rate (event : WideEvent)
    (options : SamplingOptions) (random : Q) :
  (random < sampleRate options)%Q ->
  defaultSampling event options random = true.
Proof.
  intros Hlt. apply Qltb_lt in Hlt. unfold defaultSampling. rewrite Hlt.
  by destruct (is_error_status event options), (has_error event),
    (is_slow event options).
Qed.

(** Called directly, the policy never keeps a plain event at rate 0 and
    always keeps it at rate 1, whatever the draw in [0, 1). *)
Lemma defaultSampling_rate_zero_one (event : WideEvent) (slow : Z)
    (code : option ErrorCode) (random : Q) :
  (0 <= random)%Q -> (random < 1)%Q ->
  plain_event event (mkSamplingOptions slow 0 code) = true ->
  defaultSampling event (mkSamplingOptions slow 0 code) random = false
  ∧ defaultSampling event (mkSamplingOptions slow 1 code) random = true.
Proof.
  intros H0 H1 Hplain. split.
  - rewrite defaultSampling_plain by done. cbn.
    apply not_true_is_false. intros H. apply Qltb_lt in H.
    exact (Qlt_not_le _ _ H H0).
  - by apply defaultSampling_draw_below_rate.
Qed.

(** A middleware configured with rate 1 and the default policy keeps every
    event, whatever the draw in [0, 1). *)
Lemma middleware_rate_one_keeps (env : Env) (o : WideLoggerOptions.t)
    (event : WideEvent) :
  WideLoggerOptions.sampleRate o = Some 1%Q ->
  WideLoggerOptions.sampling o = None ->
  (math_random env < 1)%Q ->
  sampling_result env (merge_options env (Some o)) event = Normal true.
Proof.
  intros Hrate Hnone Hdraw. unfold sampling_result. cbn. rewrite Hnone.
  f_equal. apply defaultSampling_draw_below_rate. cbn. by rewrite Hrate.
Qed.

(** A middleware configured with rate 0 and the default policy keeps a plain
    event exactly when the draw is below 0.05. *)
Lemma middleware_rate_zero_decision (env : Env) (o : WideLoggerOptions.t)
    (event : WideEvent) :
  WideLoggerOptions.sampleRate o = Some 0%Q ->
  WideLoggerOptions.sampling o = None ->
  plain_event event (sampling_options (merge_options env (Some o))) = true ->
  sampling_result env (merge_options env (Some o)) event
  = Normal (Qltb (math_random env) (5 # 100)).
Proof.
  intros Hrate Hnone Hplain. unfold sampling_result. cbn [merge_options InternalOptions.sampling].
  rewrite Hnone. f_equal. rewrite defaultSampling_plain by exact Hplain.
  cbn. by rewrite Hrate.
Qed.

(** [opts.sampleRate || 0.05] turns a configured rate of 0 into 0.05. *)
Lemma sampling_options_rate_zero (env : Env) (o : WideLoggerOptions.t) :
  WideLoggerOptions.sampleRate o = Some 0%Q ->
  sampleRate (sampling_options (merge_options env (Some o))) = (5 # 100)%Q.
Proof. intros H. cbn. rewrite H. reflexivity. Qed.

(** C4, the code at [wideLogger({ sampleRate: 0 })].  A request answered
    with status 200 after 100 ms gives a plain event; with a draw of 0.01 the
    middleware hands the policy the rate 0.05 and the event is logged. *)
Theorem sampleRate_zero_still_logs :
  let run :=
    wideLogger (Some rate_zero_options) sample_env
      (sample_context "x-request-id" "abc") quick_ok_handler in
  let opts := merge_options sample_env (Some rate_zero_options) in
  fst run = Normal tt
  ∧ plain_event (w_event (snd run)) (sampling_options opts) = true
  ∧ math_random sample_env = (1 # 100)%Q
  ∧ sampleRate (sampling_options opts) = (5 # 100)%Q
  ∧ infos (w_trace (snd run)) = [json_stringify sample_env (w_event (snd run))].
Proof. cbv zeta. repeat split. Qed.

(** ** The finalized event and the calls of the [finally] block *)

Lemma spread_empty_r (a : gmap string JsValue) : spread a ∅ = a.
Proof. apply map_eq. intros k. by rewrite spread_lookup, lookup_empty. Qed.

Lemma apply_op_request_id (env : Env) (op : HandlerOp) (event : WideEvent) :
  request_id (apply_op env op event) = request_id event.
Proof. destruct op as [category data|e metadata], event; [by destruct category|done]. Qed.

Lemma apply_ops_request_id (env : Env) (ops : list HandlerOp) (event : WideEvent) :
  request_id (apply_ops env ops event) = request_id event.
Proof.
  revert event. induction ops as [|op ops IH]; intros event; [done|].
  cbn. unfold apply_ops in IH. by rewrite IH, apply_op_request_id.
Qed.

Lemma finalized_event_request_id (options : option WideLoggerOptions.t)
    (env : Env) (c : Context) (h : Handler) :
  request_id (finalized_event options env c h)
  = resolve_request_id env (merge_options env options) c.
Proof.
  unfold finalized_event. cbv zeta.
  pose proof (apply_ops_request_id env (h_ops h)
                (initial_event env c
                   (resolve_request_id env (merge_options env options) c))) as H.
  destruct (apply_ops _ _ _), (h_end h); exact H.
Qed.

Lemma finalized_event_status (options : option WideLoggerOptions.t)
    (env : Env) (c : Context) (h : Handler) :
  status_code (finalized_event options env c h)
  = Some (match h_end h with Returns status => status | Throws _ => 500%Z end)
  ∧ duration_ms (finalized_event options env c h) = Some (h_elapsed h).
Proof.
  unfold finalized_event. cbv zeta.
  destruct (apply_ops _ _ _), (h_end h); by split.
Qed.

Lemma samples_disposition_trace (env : Env) (opts : InternalOptions.t)
    (rid : string) (event : WideEvent) :
  samples (disposition_trace env opts rid event) = [event].
Proof.
  unfold disposition_trace.
  destruct (sampling_result env opts event) as [[|]|]; cbn; try done.
  by destruct (Logger.info _ _), (InternalOptions.storage opts).
Qed.

Lemma headers_disposition_trace (env : Env) (opts : InternalOptions.t)
    (rid : string) (event : WideEvent) :
  headers (disposition_trace env opts rid event) = [].
Proof.
  unfold disposition_trace.
  destruct (sampling_result env opts event) as [[|]|]; cbn; try done.
  by destruct (Logger.info _ _), (InternalOptions.storage opts).
Qed.

Lemma infos_disposition_trace (env : Env) (opts : InternalOptions.t)
    (rid : string) (event : WideEvent) :
  infos (disposition_trace env opts rid event)
  = match sampling_result env opts event with
    | Normal true => [json_stringify env event]
    | _ => []
    end.
Proof.
  unfold disposition_trace.
  destruct (sampling_result env opts event) as [[|]|]; cbn; try done.
  by destruct (Logger.info _ _), (InternalOptions.storage opts).
Qed.

Lemma stores_disposition_trace (env : Env) (opts : InternalOptions.t)
    (rid : string) (event : WideEvent) :
  stores (disposition_trace env opts rid event)
  = match sampling_result env opts event,
          Logger.info (InternalOptions.logger opts) (json_stringify env event),
          InternalOptions.storage opts with
    | Normal true, None, Some _ => [(rid, event)]
    | _, _, _ => []
    end.
Proof.
  unfold disposition_trace.
  destruct (sampling_result env opts event) as [[|]|]; cbn; try done.
  by destruct (Logger.info _ _), (InternalOptions.storage opts).
Qed.

(** On the failure path the default policy always keeps the event: its
    status is 500, which reaches either threshold. *)
Lemma failure_path_is_sampled (options : option WideLoggerOptions.t)
    (env : Env) (c : Context) (ops : list HandlerOp) (elapsed : Z) (e : JsError) :
  InternalOptions.sampling (merge_options env options) = None ->
  sampling_result env (merge_options env options)
    (finalized_event options env c (mkHandler ops elapsed (Throws e)))
  = Normal true.
Proof.
  intros Hs. unfold sampling_result. rewrite Hs. f_equal.
  unfold defaultSampling.
  destruct (finalized_event_status options env c (mkHandler ops elapsed (Throws e)))
    as [Hst _].
  unfold is_error_status. rewrite Hst. cbn [h_end].
  unfold errorThreshold.
  by destruct (errorCode (sampling_options (merge_options env options))) as [[|]|].
Qed.

(** ** C7: the response header *)

(** Whatever the options, the middleware writes one response header: its
    name is the literal [x-request-id] and its value is the request id
    stored in the event. *)
Lemma response_header_fixed_name (options : option WideLoggerOptions.t)
    (env : Env) (c : Context) (h : Handler) :
  let w := snd (wideLogger options env c h) in
  headers (w_trace w) = [("x-request-id", request_id (w_event w))]
  ∧ request_id (w_event w)
    = resolve_request_id env (merge_options env options) c.
Proof.
  cbv zeta. rewrite wideLogger_run. cbn [snd w_trace w_event].
  rewrite finalized_event_request_id. split; [|reflexivity].
  cbn [app headers]. by rewrite headers_disposition_trace.
Qed.

(** C7, the code at [wideLogger({ requestIdHeader: "x-correlation-id" })] on
    a request that carries [x-correlation-id: abc].  The id is read from the
    configured header, and the one response header written is named
    [x-request-id], not [x-correlation-id]. *)
Theorem response_header_ignores_configured_name :
  let options :=
    WideLoggerOptions.mk None None None None None None (Some "x-correlation-id") None in
  let run :=
    wideLogger (Some options) sample_env
      (sample_context "x-correlation-id" "abc") (mkHandler [] 100 (Returns 200)) in
  InternalOptions.requestIdHeader (merge_options sample_env (Some options))
  = "x-correlation-id"
  ∧ request_id (w_event (snd run)) = "abc"
  ∧ headers (w_trace (snd run)) = [("x-request-id", "abc")].
Proof. cbv zeta. repeat split. Qed.

(** ** C1: the disposition step *)


(** ** C3: the failure path *)

(** C3, as the code has it.  When the handler throws [e], the event the
    [finally] block sees has [status_code] 500 and [duration_ms] set to the
    elapsed time, and its [error] is what [addError(e)] without metadata
    records.  The [try]/[catch] statement ends by throwing [e] itself.  The
    middleware then never completes normally: it throws [e] when the
    [finally] block completes, and otherwise it throws what the [finally]
    block threw. *)
Theorem handler_failure_is_recorded_and_rethrown
    (options : option WideLoggerOptions.t) (env : Env) (c : Context)
    (ops : list HandlerOp) (elapsed : Z) (e : JsError) :
  let h := mkHandler ops elapsed (Throws e) in
  let opts := merge_options env options in
  let rid := resolve_request_id env opts c in
  let run := wideLogger options env c h in
  let ev := w_event (snd run) in
  status_code ev = Some 500%Z
  ∧ duration_ms ev = Some elapsed
  ∧ error ev = Some (derivedError (development env) e)
  ∧ ev = addError (development env) e None
           (set_duration_ms elapsed
              (set_status_code 500 (apply_ops env ops (initial_event env c rid))))
  ∧ (∀ (start : Z) (w0 : World),
        fst (try_catch (try_block env h start) (catch_block env start) w0)
        = Thrown e)
  ∧ (∃ e' : JsError, fst run = Thrown e')
  ∧ fst run = match disposition_result env opts rid ev with
              | None => Thrown e
              | Some e' => Thrown e'
              end.
Proof.
  cbv zeta. rewrite wideLogger_run. cbn [fst snd w_event pending h_end].
  destruct (finalized_event_status options env c (mkHandler ops elapsed (Throws e)))
    as [Hst Hdur].
  split; [exact Hst|]. split; [exact Hdur|]. split; [|split; [|split; [|split]]].
  - unfold finalized_event. cbn [h_end h_ops h_elapsed].
    by rewrite error_addError, spread_empty_r.
  - reflexivity.
  - intros start w0. by rewrite try_statement_spec.
  - destruct (disposition_result _ _ _ _) as [e'|]; eauto.
  - by destruct (disposition_result _ _ _ _).
Qed.

(** The handler throws, the event is logged, and the awaited [storage.set]
    rejects: the rejection is what leaves the middleware. *)
Lemma handler_error_lost_when_persist_fails :
  let options := log_everything_options None (Some failing_storage) in
  let run :=
    wideLogger (Some options) sample_env (sample_context "x-request-id" "abc")
      (mkHandler [] 3 (Throws (sample_error "boom"))) in
  fst run = Thrown (sample_error "store down")
  ∧ fst run ≠ Thrown (sample_error "boom")
  ∧ stores (w_trace (snd run)) = [("abc", w_event (snd run))].
Proof. cbv zeta. split; [reflexivity|]. split; [discriminate|reflexivity]. Qed.

(** ** C9: a sink that throws on the failure path *)

(** C9, as the code has it.  On the failure path, with the default policy
    or a policy that returns true, a throw of [logger.info], or of the
    awaited [storage.set] after [logger.info] returned, replaces the
    handler's error: what leaves the middleware is the error of the sink. *)
Theorem sink_failure_replaces_handler_error
    (options : option WideLoggerOptions.t) (env : Env) (c : Context)
    (ops : list HandlerOp) (elapsed : Z) (e e' : JsError) :
  let h := mkHandler ops elapsed (Throws e) in
  let opts := merge_options env options in
  let rid := resolve_request_id env opts c in
  let run := wideLogger options env c h in
  let ev := w_event (snd run) in
  let line := json_stringify env ev in
  InternalOptions.sampling opts = None
  ∨ sampling_result env opts ev = Normal true ->
  Logger.info (InternalOptions.logger opts) line = Some e'
  ∨ (Logger.info (InternalOptions.logger opts) line = None
     ∧ ∃ s : Storage.t,
         InternalOptions.storage opts = Some s ∧ Storage.set s rid ev = Some e') ->
  fst run = Thrown e'.
Proof.
  cbv zeta. rewrite wideLogger_run. cbn [fst snd w_event pending h_end].
  intros Hkeep Hsink.
  assert (sampling_result env (merge_options env options)
            (finalized_event options env c (mkHandler ops elapsed (Throws e)))
          = Normal true) as Hs.
  { destruct Hkeep as [Hnone|Htrue]; [|exact Htrue].
    by apply failure_path_is_sampled. }
  unfold disposition_result. rewrite Hs.
  destruct Hsink as [Hinfo|[Hinfo [s [Hstorage Hset]]]].
  - by rewrite Hinfo.
  - by rewrite Hinfo, Hstorage, Hset.
Qed.

Lemma sink_failure_replaces_handler_error_witness :
  fst (wideLogger (Some (log_everything_options (Some failing_logger) None))
         sample_env (sample_context "x-request-id" "abc")
         (mkHandler [] 3 (Throws (sample_error "boom"))))
  = Thrown (sample_error "sink down").
Proof.
  apply (sink_failure_replaces_handler_error
           (Some (log_everything_options (Some failing_logger) None))
           sample_env (sample_context "x-request-id" "abc") [] 3
           (sample_error "boom") (sample_error "sink down")).
  - left. reflexivity.
  - left. reflexivity.
Defined.

(** The handler throws ["boom"], the event is kept, and [logger.info]
    throws ["sink down"]: the caller of the middleware sees ["sink down"]. *)
Lemma handler_error_masked_by_logger :
  let options :=
    WideLoggerOptions.mk (Some failing_logger) None None None None None None None in
  let run :=
    wideLogger (Some options) sample_env (sample_context "x-request-id" "abc")
      (mkHandler [OpAddContext CatUser {["id" := JStr "123"]}] 7
         (Throws (sample_error "boom"))) in
  infos (w_trace (snd run)) = [json_stringify sample_env (w_event (snd run))]
  ∧ fst run = Thrown (sample_error "sink down")
  ∧ fst run ≠ Thrown (sample_error "boom").
Proof. cbv zeta. split; [reflexivity|]. split; [reflexivity|discriminate]. Qed.

(** * More properties of the middleware *)

(** ** The request id *)

Lemma str_truthy_nonempty (s : string) : str_truthy s = true <-> s ≠ "".
Proof. destruct s; cbn; split; intros; congruence. Qed.

Lemma final_event_is_finalized (options : option WideLoggerOptions.t)
    (env : Env) (c : Context) (h : Handler) :
  w_event (snd (wideLogger options env c h)) = finalized_event options env c h.
Proof. by rewrite wideLogger_run. Qed.

Lemma final_trace (options : option WideLoggerOptions.t)
    (env : Env) (c : Context) (h : Handler) :
  w_trace (snd (wideLogger options env c h))
  = ([ESetVar "wide-logger";
      EHeader "x-request-id" (resolve_request_id env (merge_options env options) c)]
     ++ disposition_trace env (merge_options env options)
          (resolve_request_id env (merge_options env options) c)
          (finalized_event options env c h))%list.
Proof. by rewrite wideLogger_run. Qed.

Lemma final_completion (options : option WideLoggerOptions.t)
    (env : Env) (c : Context) (h : Handler) :
  fst (wideLogger options env c h)
  = match disposition_result env (merge_options env options)
            (resolve_request_id env (merge_options env options) c)
            (finalized_event options env c h) with
    | Some e => Thrown e
    | None => pending h
    end.
Proof. by rewrite wideLogger_run. Qed.

Lemma resolve_request_id_header (env : Env) (opts : InternalOptions.t)
    (c : Context) (v : string) :
  req_header c (request_id_header_read opts) = Some v ->
  v ≠ "" ->
  resolve_request_id env opts c = v.
Proof.
  intros Hh Hv. unfold resolve_request_id.
  unfold request_id_header_read in Hh. rewrite Hh.
  destruct v; [done|reflexivity].
Qed.



(** X2.  A middleware configured with the empty string as [requestIdHeader]
    reads the incoming id from [x-request-id]. *)
Theorem empty_header_name_reads_default (o : WideLoggerOptions.t)
    (env : Env) (c : Context) (h : Handler) (v : string) :
  WideLoggerOptions.requestIdHeader o = Some "" ->
  req_header c "x-request-id" = Some v ->
  v ≠ "" ->
  request_id (w_event (snd (wideLogger (Some o) env c h))) = v.
Proof.
  intros Hname Hh Hv.
  destruct (response_header_fixed_name (Some o) env c h) as [_ Hrid].
  cbv zeta in Hrid. rewrite Hrid.
  apply resolve_request_id_header; [|exact Hv].
  unfold request_id_header_read. cbn. by rewrite Hname.
Qed.

Lemma empty_header_name_reads_default_witness :
  request_id
    (w_event
       (snd (wideLogger
               (Some (WideLoggerOptions.mk None None None None None None (Some "") None))
               sample_env (sample_context "x-request-id" "abc") quick_ok_handler)))
  = "abc".
Proof.
  apply (empty_header_name_reads_default
           (WideLoggerOptions.mk None None None None None None (Some "") None)
           sample_env (sample_context "x-request-id" "abc") quick_ok_handler "abc").
  - reflexivity.
  - reflexivity.
  - discriminate.
Defined.

(** X3.  When that header is missing or empty, the id is what the generator
    returns (the configured one, else [crypto.randomUUID]), unless the
    generator returns the empty string, in which case it is a fresh
    [crypto.randomUUID()]. *)
Theorem request_id_generated (options : option WideLoggerOptions.t)
    (env : Env) (c : Context) (h : Handler) :
  req_header c (request_id_header_read (merge_options env options)) = None
  ∨ req_header c (request_id_header_read (merge_options env options)) = Some "" ->
  let g := InternalOptions.generateRequestId (merge_options env options) tt in
  request_id (w_event (snd (wideLogger options env c h)))
  = (if str_truthy g then g else random_uuid env)
  ∧ (options = None -> g = random_uuid env).
Proof.
  intros Hh. cbv zeta.
  destruct (response_header_fixed_name options env c h) as [_ Hrid].
  cbv zeta in Hrid. rewrite Hrid. split; [|by intros ->].
  unfold resolve_request_id. unfold request_id_header_read in Hh.
  destruct Hh as [-> | ->]; reflexivity.
Qed.

Lemma request_id_generated_witness :
  request_id
    (w_event (snd (wideLogger None sample_env (sample_context "accept" "text/html")
                     quick_ok_handler))) = "3f2c9a10-uuid".
Proof.
  exact (proj1 (request_id_generated None sample_env
                  (sample_context "accept" "text/html") quick_ok_handler
                  (or_introl eq_refl))).
Defined.

(** X4.  If [crypto.randomUUID()] returns a non-empty string, the resolved
    request id is never empty, whatever the header holds and whatever the
    configured generator returns. *)
Theorem request_id_never_empty (options : option WideLoggerOptions.t)
    (env : Env) (c : Context) (h : Handler) :
  random_uuid env ≠ "" ->
  request_id (w_event (snd (wideLogger options env c h))) ≠ "".
Proof.
  intros Hu.
  destruct (response_header_fixed_name options env c h) as [_ Hrid].
  cbv zeta in Hrid. rewrite Hrid.
  unfold resolve_request_id, str_or_default at 1.
  destruct (str_or _ _) as [s|] eqn:Hs; [|exact Hu].
  destruct (str_truthy s) eqn:Ht; [|exact Hu].
  by apply str_truthy_nonempty.
Qed.

Lemma request_id_never_empty_witness :
  request_id
    (w_event
       (snd (wideLogger
               (Some (WideLoggerOptions.mk None None None None None
                        (Some (fun _ => "")) None None))
               sample_env (sample_context "x-request-id" "") quick_ok_handler)))
  ≠ "" ∧ random_uuid sample_env = "3f2c9a10-uuid".
Proof.
  split; [|reflexivity].
  apply (request_id_never_empty
           (Some (WideLoggerOptions.mk None None None None None
                    (Some (fun _ => "")) None None))
           sample_env (sample_context "x-request-id" "") quick_ok_handler).
  discriminate.
Defined.

(** ** What is captured from the request *)

Lemma apply_op_captured (env : Env) (op : HandlerOp) (event : WideEvent) :
  captured (apply_op env op event) = captured event
  ∧ status_code (apply_op env op event) = status_code event
  ∧ duration_ms (apply_op env op event) = duration_ms event.
Proof. destruct op as [category data|e metadata], event; [by destruct category|done]. Qed.

Lemma apply_ops_captured (env : Env) (ops : list HandlerOp) (event : WideEvent) :
  captured (apply_ops env ops event) = captured event
  ∧ status_code (apply_ops env ops event) = status_code event
  ∧ duration_ms (apply_ops env ops event) = duration_ms event.
Proof.
  revert event. induction ops as [|op ops IH]; intros event; [done|].
  cbn. unfold apply_ops in IH.
  destruct (IH (apply_op env op event)) as [-> [-> ->]].
  apply apply_op_captured.
Qed.

Lemma finalized_event_captured (options : option WideLoggerOptions.t)
    (env : Env) (c : Context) (h : Handler) :
  captured (finalized_event options env c h)
  = captured (initial_event env c
                (resolve_request_id env (merge_options env options) c)).
Proof.
  unfold finalized_event. cbv zeta.
  destruct (apply_ops_captured env (h_ops h)
              (initial_event env c
                 (resolve_request_id env (merge_options env options) c)))
    as [H _].
  rewrite <- H.
  destruct (apply_ops _ _ _), (h_end h); reflexivity.
Qed.

(** X5.  Whatever the handler does with the handle and however it ends, the
    event that reaches the sinks has the [timestamp], [method], [path],
    [user_agent] and [content_type] captured on entry: the time of entry, the
    request's method and path, and the request's [user-agent] and
    [Content-type] headers. *)
Theorem captured_fields_are_frozen (options : option WideLoggerOptions.t)
    (env : Env) (c : Context) (h : Handler) :
  let ev := w_event (snd (wideLogger options env c h)) in
  timestamp ev = date_iso env
  ∧ method ev = req_method c
  ∧ path ev = req_path c
  ∧ user_agent ev = req_header c "user-agent"
  ∧ content_type ev = req_header c "Content-type".
Proof.
  cbv zeta. rewrite final_event_is_finalized.
  pose proof (finalized_event_captured options env c h) as H.
  unfold captured in H. cbn in H.
  by inversion H.
Qed.

(** X6.  The middleware never fills [query_params], [request_size_bytes] or
    [response_size_bytes]: on every run the event that reaches the sinks has
    none of the three. *)
Theorem unfilled_fields_stay_absent (options : option WideLoggerOptions.t)
    (env : Env) (c : Context) (h : Handler) :
  let ev := w_event (snd (wideLogger options env c h)) in
  query_params ev = None
  ∧ request_size_bytes ev = None
  ∧ response_size_bytes ev = None.
Proof.
  cbv zeta. rewrite final_event_is_finalized.
  pose proof (finalized_event_captured options env c h) as H.
  unfold captured in H. cbn in H.
  by inversion H.
Qed.

(** X7.  [client_ip] is the [x-forwarded-for] header when that is present
    and not empty; otherwise it is the [x-real-ip] header, and it is absent
    when that header is absent too.  No handler call changes it. *)
Theorem client_ip_precedence (options : option WideLoggerOptions.t)
    (env : Env) (c : Context) (h : Handler) :
  let ev := w_event (snd (wideLogger options env c h)) in
  (∀ v : string,
      req_header c "x-forwarded-for" = Some v -> v ≠ "" -> client_ip ev = Some v)
  ∧ (req_header c "x-forwarded-for" = None
     ∨ req_header c "x-forwarded-for" = Some "" ->
     client_ip ev = req_header c "x-real-ip").
Proof.
  cbv zeta. rewrite final_event_is_finalized.
  pose proof (finalized_event_captured options env c h) as H.
  unfold captured in H. cbn in H.
  assert (client_ip (finalized_event options env c h)
          = str_or (req_header c "x-forwarded-for") (req_header c "x-real-ip"))
    as -> by (by inversion H).
  split.
  - intros v -> Hv. cbn. by destruct v.
  - by intros [-> | ->].
Qed.

Lemma client_ip_precedence_witness :
  client_ip
    (w_event (snd (wideLogger None sample_env
                     (sample_context "x-real-ip" "10.0.0.1") quick_ok_handler)))
  = Some "10.0.0.1".
Proof.
  exact (proj2 (client_ip_precedence None sample_env
                  (sample_context "x-real-ip" "10.0.0.1") quick_ok_handler)
           (or_introl eq_refl)).
Defined.

(** ** The calls a run makes *)

(** X8.  On every run the handle is published under ["wide-logger"] and the
    response header is written before anything else; the sampling policy is
    called next; [logger.info] is called at most once; and [storage.set] is
    called at most once and only after [logger.info] was called: an event is
    never persisted without having been emitted. *)
Theorem calls_are_ordered (options : option WideLoggerOptions.t)
    (env : Env) (c : Context) (h : Handler) :
  let w := snd (wideLogger options env c h) in
  let ev := w_event w in
  let rid := request_id ev in
  let line := json_stringify env ev in
  w_trace w = [ESetVar "wide-logger"; EHeader "x-request-id" rid; ESample ev]
  ∨ w_trace w = [ESetVar "wide-logger"; EHeader "x-request-id" rid; ESample ev;
                 EInfo line]
  ∨ w_trace w = [ESetVar "wide-logger"; EHeader "x-request-id" rid; ESample ev;
                 EInfo line; EStorageSet rid ev].
Proof.
  cbv zeta. rewrite final_trace, final_event_is_finalized.
  rewrite finalized_event_request_id.
  unfold disposition_trace.
  destruct (sampling_result _ _ _) as [[|]|]; cbn; [|by left|by left].
  destruct (Logger.info _ _);
    destruct (InternalOptions.storage (merge_options env options)); cbn; auto.
Qed.

(** ** What the default policy keeps, seen through the middleware *)

Lemma run_infos (options : option WideLoggerOptions.t)
    (env : Env) (c : Context) (h : Handler) :
  infos (w_trace (snd (wideLogger options env c h)))
  = match sampling_result env (merge_options env options)
            (finalized_event options env c h) with
    | Normal true => [json_stringify env (finalized_event options env c h)]
    | _ => []
    end.
Proof. rewrite final_trace. cbn [app infos]. apply infos_disposition_trace. Qed.

Lemma run_stores (options : option WideLoggerOptions.t)
    (env : Env) (c : Context) (h : Handler) :
  stores (w_trace (snd (wideLogger options env c h)))
  = match sampling_result env (merge_options env options)
            (finalized_event options env c h),
          Logger.info (InternalOptions.logger (merge_options env options))
            (json_stringify env (finalized_event options env c h)),
          InternalOptions.storage (merge_options env options) with
    | Normal true, None, Some _ =>
      [(resolve_request_id env (merge_options env options) c,
        finalized_event options env c h)]
    | _, _, _ => []
    end.
Proof. rewrite final_trace. cbn [app stores]. apply stores_disposition_trace. Qed.

Lemma has_error_apply_op (env : Env) (op : HandlerOp) (event : WideEvent) :
  has_error (apply_op env op event) = is_addError op || has_error event.
Proof. destruct op as [category data|e metadata], event; [by destruct category|done]. Qed.

Lemma has_error_apply_ops (env : Env) (ops : list HandlerOp) (event : WideEvent) :
  has_error (apply_ops env ops event) = existsb is_addError ops || has_error event.
Proof.
  revert event. induction ops as [|op ops IH]; intros event; [done|].
  cbn. unfold apply_ops in IH. rewrite IH, has_error_apply_op.
  by destruct (is_addError op), (existsb is_addError ops), (has_error event).
Qed.

Lemma has_error_finalized_success (options : option WideLoggerOptions.t)
    (env : Env) (c : Context) (ops : list HandlerOp) (elapsed status : Z) :
  has_error (finalized_event options env c (mkHandler ops elapsed (Returns status)))
  = existsb is_addError ops.
Proof.
  unfold finalized_event. cbn [h_ops h_end h_elapsed].
  pose proof (has_error_apply_ops env ops
                (initial_event env c
                   (resolve_request_id env (merge_options env options) c))) as H.
  cbn [initial_event has_error error] in H. rewrite orb_false_r in H.
  rewrite <- H. by destruct (apply_ops _ _ _).
Qed.

(** ** A custom sampling function *)

(** X11.  A custom [sampling] function replaces the default policy: when it
    returns false neither sink is called, even for a request whose handler
    threw, and the middleware ends the way the handler ended (it returns
    when the handler returned and throws the handler's error when the
    handler threw).  The sample rate, the thresholds and the random draw
    play no part. *)
Theorem custom_sampling_false_skips_sinks (options : option WideLoggerOptions.t)
    (env : Env) (c : Context) (h : Handler) (f : SamplingFn) :
  InternalOptions.sampling (merge_options env options) = Some f ->
  let run := wideLogger options env c h in
  f (w_event (snd run)) = Normal false ->
  infos (w_trace (snd run)) = []
  ∧ stores (w_trace (snd run)) = []
  ∧ samples (w_trace (snd run)) = [w_event (snd run)]
  ∧ fst run = match h_end h with
              | Returns _ => Normal tt
              | Throws e => Thrown e
              end.
Proof.
  intros Hs. cbv zeta. rewrite final_event_is_finalized. intros Hf.
  rewrite run_infos, run_stores, final_completion, final_trace.
  cbn [app samples]. rewrite samples_disposition_trace.
  unfold disposition_result, sampling_result. rewrite Hs, Hf. done.
Qed.

Lemma custom_sampling_false_skips_sinks_witness :
  let run :=
    wideLogger (Some never_log_options) sample_env
      (sample_context "x-request-id" "abc")
      (mkHandler [] 3 (Throws (sample_error "boom"))) in
  infos (w_trace (snd run)) = [] ∧ fst run = Thrown (sample_error "boom").
Proof.
  cbv zeta.
  destruct (custom_sampling_false_skips_sinks (Some never_log_options) sample_env
              (sample_context "x-request-id" "abc")
              (mkHandler [] 3 (Throws (sample_error "boom")))
              (fun _ => Normal false) eq_refl eq_refl)
    as [Hi [_ [_ Hr]]].
  split; [exact Hi|exact Hr].
Defined.

(** X12.  When the custom [sampling] function throws, that error leaves the
    middleware, also for a request whose handler returned, and neither sink
    is called. *)
Theorem custom_sampling_throw_propagates (options : option WideLoggerOptions.t)
    (env : Env) (c : Context) (h : Handler) (f : SamplingFn) (e' : JsError) :
  InternalOptions.sampling (merge_options env options) = Some f ->
  let run := wideLogger options env c h in
  f (w_event (snd run)) = Thrown e' ->
  fst run = Thrown e'
  ∧ infos (w_trace (snd run)) = []
  ∧ stores (w_trace (snd run)) = [].
Proof.
  intros Hs. cbv zeta. rewrite final_event_is_finalized. intros Hf.
  rewrite run_infos, run_stores, final_completion.
  unfold disposition_result, sampling_result. rewrite Hs, Hf. done.
Qed.

Lemma custom_sampling_throw_propagates_witness :
  fst (wideLogger (Some throwing_sampling_options) sample_env
         (sample_context "x-request-id" "abc") quick_ok_handler)
  = Thrown (sample_error "bad policy").
Proof.
  exact (proj1 (custom_sampling_throw_propagates (Some throwing_sampling_options)
                  sample_env (sample_context "x-request-id" "abc") quick_ok_handler
                  (fun _ => Thrown (sample_error "bad policy"))
                  (sample_error "bad policy") eq_refl eq_refl)).
Defined.

(** ** Sinks that throw on the success path *)

(** X13.  When the handler returned and the event is kept, a throw of
    [logger.info], or of the awaited [storage.set] after [logger.info]
    returned, leaves the middleware: the request that succeeded ends in that
    error, while the event still records the response status. *)
Theorem sink_failure_fails_successful_request
    (options : option WideLoggerOptions.t) (env : Env) (c : Context)
    (ops : list HandlerOp) (elapsed status : Z) (e' : JsError) :
  let opts := merge_options env options in
  let rid := resolve_request_id env opts c in
  let run := wideLogger options env c (mkHandler ops elapsed (Returns status)) in
  let ev := w_event (snd run) in
  let line := json_stringify env ev in
  sampling_result env opts ev = Normal true ->
  Logger.info (InternalOptions.logger opts) line = Some e'
  ∨ (Logger.info (InternalOptions.logger opts) line = None
     ∧ ∃ s : Storage.t,
         InternalOptions.storage opts = Some s ∧ Storage.set s rid ev = Some e') ->
  fst run = Thrown e' ∧ status_code ev = Some status.
Proof.
  cbv zeta. rewrite final_event_is_finalized, final_completion.
  intros Hkeep Hsink. split.
  - unfold disposition_result. rewrite Hkeep.
    destruct Hsink as [Hinfo|[Hinfo [s [Hstorage Hset]]]].
    + by rewrite Hinfo.
    + by rewrite Hinfo, Hstorage, Hset.
  - by destruct (finalized_event_status options env c
                   (mkHandler ops elapsed (Returns status))) as [-> _].
Qed.

Lemma sink_failure_fails_successful_request_witness :
  fst (wideLogger (Some (log_everything_options None (Some failing_storage)))
         sample_env (sample_context "x-request-id" "abc") quick_ok_handler)
  = Thrown (sample_error "store down").
Proof.
  refine (proj1 (sink_failure_fails_successful_request
                   (Some (log_everything_options None (Some failing_storage)))
                   sample_env (sample_context "x-request-id" "abc")
                   [] 100 200 (sample_error "store down") eq_refl _)).
  right. split; [reflexivity|].
  exists failing_storage. split; reflexivity.
Defined.

(** ** How the calls on the handle compose *)

Lemma Category_eqb_eq (a b : Category) : Category_eqb a b = true <-> a = b.
Proof. destruct a, b; cbn; split; intros; congruence. Qed.

Lemma set_slot_set_slot (category : Category) (v1 v2 : gmap string JsValue)
    (event : WideEvent) :
  set_slot category v1 (set_slot category v2 event) = set_slot category v1 event.
Proof. by destruct event, category. Qed.

Lemma spread_opt_Some (m : gmap string JsValue) : spread_opt (Some m) = m.
Proof. reflexivity. Qed.

Lemma spread_idem (a b : gmap string JsValue) : spread (spread a b) b = spread a b.
Proof.
  apply map_eq. intros k. rewrite !spread_lookup. by destruct (b !! k).
Qed.

(** X14.  Calls on different fields commute: two [addContext] calls on
    different categories give the same event in either order, and so do an
    [addContext] and an [addError]. *)
Theorem handle_calls_commute (c1 c2 : Category) (d1 d2 : gmap string JsValue)
    (dev : bool) (e : JsError) (metadata : option (gmap string JsValue))
    (event : WideEvent) :
  c1 ≠ c2 ->
  addContext c1 d1 (addContext c2 d2 event) = addContext c2 d2 (addContext c1 d1 event)
  ∧ addContext c1 d1 (addError dev e metadata event)
    = addError dev e metadata (addContext c1 d1 event).
Proof.
  intros Hne. split.
  - destruct event, c1, c2; done.
  - destruct event, c1; done.
Qed.

Lemma handle_calls_commute_witness :
  addContext CatUser {["id" := JStr "123"]}
    (addContext CatInfra {["region" := JStr "us-east-1"]} sample_event)
  = addContext CatInfra {["region" := JStr "us-east-1"]}
      (addContext CatUser {["id" := JStr "123"]} sample_event).
Proof.
  exact (proj1 (handle_calls_commute CatUser CatInfra {["id" := JStr "123"]}
                  {["region" := JStr "us-east-1"]} false (sample_error "boom") None
                  sample_event ltac:(discriminate))).
Defined.

(** X15.  [addContext(cat, {})] creates the slot as an empty object when it
    was absent and leaves the contents of an existing slot as they are; and
    repeating an [addContext] call with the same data changes nothing. *)
Theorem addContext_empty_and_repeated (category : Category)
    (data : gmap string JsValue) (event : WideEvent) :
  slot category (addContext category ∅ event)
  = Some (spread_opt (slot category event))
  ∧ addContext category data (addContext category data event)
    = addContext category data event.
Proof.
  split.
  - unfold addContext. by rewrite slot_set_slot_same, spread_empty_r.
  - unfold addContext at 1 2. rewrite slot_set_slot_same, set_slot_set_slot.
    rewrite spread_opt_Some. by rewrite spread_idem.
Qed.

Lemma context_value_apply_op_other (env : Env) (category : Category) (k : string)
    (op : HandlerOp) (event : WideEvent) :
  writes_key category k op = false ->
  context_value category k (apply_op env op event) = context_value category k event.
Proof.
  unfold context_value. destruct op as [c data|e metadata]; cbn [apply_op writes_key].
  - intros Hw. unfold addContext.
    destruct (Category_eqb c category) eqn:Hc.
    + apply Category_eqb_eq in Hc as ->. rewrite slot_set_slot_same.
      rewrite spread_opt_Some, spread_lookup.
      cbn in Hw. by destruct (data !! k).
    + rewrite slot_set_slot_other; [done|].
      intros ->. by rewrite (proj2 (Category_eqb_eq c c) eq_refl) in Hc.
  - intros _. unfold addError. by rewrite slot_set_error.
Qed.

Lemma context_value_apply_ops_other (env : Env) (category : Category) (k : string)
    (ops : list HandlerOp) (event : WideEvent) :
  forallb (fun op => negb (writes_key category k op)) ops = true ->
  context_value category k (apply_ops env ops event) = context_value category k event.
Proof.
  revert event. induction ops as [|op ops IH]; intros event; [done|].
  cbn. intros H. apply andb_prop in H as [Hop Hops].
  apply negb_true_iff in Hop. unfold apply_ops in IH.
  by rewrite IH, context_value_apply_op_other.
Qed.

Lemma context_value_finalized (options : option WideLoggerOptions.t)
    (env : Env) (c : Context) (h : Handler) (category : Category) (k : string) :
  context_value category k (finalized_event options env c h)
  = context_value category k
      (apply_ops env (h_ops h)
         (initial_event env c (resolve_request_id env (merge_options env options) c))).
Proof.
  unfold finalized_event, context_value. cbv zeta.
  by destruct (apply_ops _ _ _), (h_end h), category.
Qed.

(** X16.  In the event that reaches the sinks, key [k] of category [cat] has
    the value given by the last [addContext(cat, ...)] call of the handler
    whose data had that key, whatever other calls on the handle came before,
    between or after; and a key that no call wrote is absent. *)
Theorem last_addContext_wins (options : option WideLoggerOptions.t)
    (env : Env) (c : Context) (h : Handler) (category : Category) (k : string) :
  let ev := w_event (snd (wideLogger options env c h)) in
  (∀ (before after : list HandlerOp) (data : gmap string JsValue) (v : JsValue),
      h_ops h = (before ++ OpAddContext category data :: after)%list ->
      data !! k = Some v ->
      forallb (fun op => negb (writes_key category k op)) after = true ->
      context_value category k ev = Some v)
  ∧ (forallb (fun op => negb (writes_key category k op)) (h_ops h) = true ->
     context_value category k ev = None).
Proof.
  cbv zeta. rewrite final_event_is_finalized, context_value_finalized. split.
  - intros before after data v -> Hv Hafter.
    unfold apply_ops. rewrite fold_left_app. cbn [fold_left].
    fold (apply_ops env after
            (apply_op env (OpAddContext category data)
               (fold_left (fun ev op => apply_op env op ev) before
                  (initial_event env c
                     (resolve_request_id env (merge_options env options) c))))).
    rewrite context_value_apply_ops_other by exact Hafter.
    unfold context_value. cbn [apply_op]. unfold addContext.
    rewrite slot_set_slot_same. rewrite spread_opt_Some.
    by rewrite spread_lookup, Hv.
  - intros Hnone. rewrite context_value_apply_ops_other by exact Hnone.
    unfold context_value. by destruct category.
Qed.

Lemma last_addContext_wins_witness :
  context_value CatUser "id"
    (w_event
       (snd (wideLogger None sample_env (sample_context "x-request-id" "abc")
               (mkHandler
                  [OpAddContext CatUser {["id" := JStr "123"]};
                   OpAddContext CatUser {["id" := JStr "456"]};
                   OpAddContext CatUser {["tier" := JStr "premium"]}]
                  5 (Returns 200)))))
  = Some (JStr "456").
Proof.
  refine (proj1 (last_addContext_wins None sample_env
                   (sample_context "x-request-id" "abc")
                   (mkHandler
                      [OpAddContext CatUser {["id" := JStr "123"]};
                       OpAddContext CatUser {["id" := JStr "456"]};
                       OpAddContext CatUser {["tier" := JStr "premium"]}]
                      5 (Returns 200))
                   CatUser "id")
            [OpAddContext CatUser {["id" := JStr "123"]}]
            [OpAddContext CatUser {["tier" := JStr "premium"]}]
            {["id" := JStr "456"]} (JStr "456") eq_refl eq_refl eq_refl).
Defined.

Lemma context_value_apply_op_mono (env : Env) (category : Category) (k : string)
    (op : HandlerOp) (event : WideEvent) :
  is_Some (context_value category k event) ->
  is_Some (context_value category k (apply_op env op event)).
Proof.
  intros Hsome. destruct (writes_key category k op) eqn:Hw.
  - destruct op as [c data|e metadata]; [|done]. cbn in Hw.
    apply andb_prop in Hw as [Hc Hk]. apply Category_eqb_eq in Hc as ->.
    unfold context_value. cbn [apply_op]. unfold addContext.
    rewrite slot_set_slot_same. rewrite spread_opt_Some, spread_lookup.
    destruct (data !! k); [eauto|done].
  - by rewrite context_value_apply_op_other.
Qed.

(** X17.  No sequence of calls on the handle removes anything: a context key
    that is present stays present, and an event that has an error keeps
    having one. *)
Theorem handle_never_removes (env : Env) (ops : list HandlerOp)
    (category : Category) (k : string) (event : WideEvent) :
  (is_Some (context_value category k event) ->
   is_Some (context_value category k (apply_ops env ops event)))
  ∧ (has_error event = true -> has_error (apply_ops env ops event) = true).
Proof.
  split.
  - revert event. induction ops as [|op ops IH]; intros event; [done|].
    intros Hsome. cbn. unfold apply_ops in IH. apply IH.
    by apply context_value_apply_op_mono.
  - intros He. rewrite has_error_apply_ops, He. apply orb_true_r.
Qed.

Lemma handle_never_removes_witness :
  is_Some
    (context_value CatUser "id"
       (apply_ops sample_env
          [OpAddContext CatUser {["tier" := JStr "premium"]};
           OpAddError (sample_error "boom") None]
          (addContext CatUser {["id" := JStr "123"]} sample_event))).
Proof.
  apply (handle_never_removes sample_env
           [OpAddContext CatUser {["tier" := JStr "premium"]};
            OpAddError (sample_error "boom") None]
           CatUser "id" (addContext CatUser {["id" := JStr "123"]} sample_event)).
  by eexists.
Defined.

(** ** Errors reported by the handler *)

Lemma error_apply_ops_no_addError (env : Env) (ops : list HandlerOp)
    (event : WideEvent) :
  forallb (fun op => negb (is_addError op)) ops = true ->
  error (apply_ops env ops event) = error event.
Proof.
  revert event. induction ops as [|op ops IH]; intros event; [done|].
  cbn. intros H. apply andb_prop in H as [Hop Hops]. unfold apply_ops in IH.
  rewrite IH by exact Hops.
  destruct op as [category data|e metadata]; [|done].
  by destruct event, category.
Qed.

Lemma error_finalized_success (options : option WideLoggerOptions.t)
    (env : Env) (c : Context) (ops : list HandlerOp) (elapsed status : Z) :
  error (finalized_event options env c (mkHandler ops elapsed (Returns status)))
  = error (apply_ops env ops
             (initial_event env c
                (resolve_request_id env (merge_options env options) c))).
Proof. unfold finalized_event. cbn [h_ops h_end]. by destruct (apply_ops _ _ _). Qed.

(** X18.  For a handler that returns, the [error] of the event that reaches
    the sinks is the one recorded by the handler's last [addError] call
    (that error's derived fields with that call's metadata on top), whatever
    [addContext] calls follow it; and it is absent when the handler never
    called [addError]. *)
Theorem last_addError_wins (options : option WideLoggerOptions.t)
    (env : Env) (c : Context) (ops : list HandlerOp) (elapsed status : Z) :
  let ev :=
    w_event (snd (wideLogger options env c (mkHandler ops elapsed (Returns status)))) in
  (∀ (before after : list HandlerOp) (e : JsError)
      (metadata : option (gmap string JsValue)),
      ops = (before ++ OpAddError e metadata :: after)%list ->
      forallb (fun op => negb (is_addError op)) after = true ->
      error ev = Some (spread (derivedError (development env) e) (spread_opt metadata)))
  ∧ (forallb (fun op => negb (is_addError op)) ops = true -> error ev = None).
Proof.
  cbv zeta. rewrite final_event_is_finalized, error_finalized_success. split.
  - intros before after e metadata -> Hafter.
    unfold apply_ops. rewrite fold_left_app. cbn [fold_left].
    fold (apply_ops env after
            (apply_op env (OpAddError e metadata)
               (fold_left (fun ev op => apply_op env op ev) before
                  (initial_event env c
                     (resolve_request_id env (merge_options env options) c))))).
    rewrite error_apply_ops_no_addError by exact Hafter.
    cbn [apply_op]. apply error_addError.
  - intros Hnone. by rewrite error_apply_ops_no_addError.
Qed.

Lemma last_addError_wins_witness :
  error_value "code"
    (w_event
       (snd (wideLogger None sample_env (sample_context "x-request-id" "abc")
               (mkHandler
                  [OpAddError (sample_error "first") None;
                   OpAddError (sample_error "second")
                     (Some {["code" := JStr "PAYMENT_FAILED"]});
                   OpAddContext CatUser {["id" := JStr "123"]}]
                  5 (Returns 200)))))
  = Some (JStr "PAYMENT_FAILED").
Proof.
  unfold error_value.
  rewrite (proj1 (last_addError_wins None sample_env
                    (sample_context "x-request-id" "abc")
                    [OpAddError (sample_error "first") None;
                     OpAddError (sample_error "second")
                       (Some {["code" := JStr "PAYMENT_FAILED"]});
                     OpAddContext CatUser {["id" := JStr "123"]}]
                    5 200)
             [OpAddError (sample_error "first") None]
             [OpAddContext CatUser {["id" := JStr "123"]}]
             (sample_error "second") (Some {["code" := JStr "PAYMENT_FAILED"]})
             eq_refl eq_refl).
  reflexivity.
Defined.

(** X19.  Calls to [addContext] never change what the default policy
    decides: on an event and on the same event after any calls on the handle
    that include no [addError], [defaultSampling] gives the same answer. *)
Theorem context_does_not_affect_default_sampling (env : Env)
    (ops : list HandlerOp) (event : WideEvent) (options : SamplingOptions)
    (random : Q) :
  forallb (fun op => negb (is_addError op)) ops = true ->
  defaultSampling (apply_ops env ops event) options random
  = defaultSampling event options random.
Proof.
  intros Hnone. unfold defaultSampling, is_error_status, is_slow.
  destruct (apply_ops_captured env ops event) as [_ [-> ->]].
  rewrite has_error_apply_ops.
  assert (existsb is_addError ops = false) as ->; [|done].
  clear -Hnone. induction ops as [|op ops IH]; [done|].
  cbn in *. apply andb_prop in Hnone as [Hop Hops].
  apply negb_true_iff in Hop. by rewrite Hop, IH.
Qed.

Lemma context_does_not_affect_default_sampling_witness :
  defaultSampling
    (apply_ops sample_env [OpAddContext CatUser {["tier" := JStr "enterprise"]}]
       (set_status_code 200 sample_event))
    (mkSamplingOptions 2000 (5 # 100) None) (1 # 2)
  = false.
Proof.
  rewrite (context_does_not_affect_default_sampling sample_env
             [OpAddContext CatUser {["tier" := JStr "enterprise"]}]
             (set_status_code 200 sample_event)
             (mkSamplingOptions 2000 (5 # 100) None) (1 # 2) eq_refl).
  reflexivity.
Defined.

(** X20.  The stack of a thrown error is recorded only in development: on
    the failure path the [stack] entry of the recorded error is the error's
    stack when [NODE_ENV] is exactly ["development"], and [undefined] for any
    other value and when [NODE_ENV] is not set. *)
Theorem stack_only_in_development (options : option WideLoggerOptions.t)
    (env : Env) (c : Context) (ops : list HandlerOp) (elapsed : Z) (e : JsError) :
  let ev :=
    w_event (snd (wideLogger options env c (mkHandler ops elapsed (Throws e)))) in
  (node_env env = Some "development" -> error_value "stack" ev = Some (err_stack e))
  ∧ (node_env env ≠ Some "development" -> error_value "stack" ev = Some JUndefined).
Proof.
  cbv zeta. rewrite final_event_is_finalized.
  unfold error_value, finalized_event. cbn [h_end h_ops h_elapsed].
  rewrite error_addError, spread_opt_Some, spread_empty_r, derivedError_stack.
  unfold development. split.
  - intros ->. reflexivity.
  - intros Hne. destruct (node_env env) as [s|]; [|done].
    destruct (String.eqb_spec s "development") as [->|_]; [done|reflexivity].
Qed.

Lemma stack_only_in_development_witness :
  error_value "stack"
    (w_event
       (snd (wideLogger None sample_env (sample_context "x-request-id" "abc")
               (mkHandler [] 3
                  (Throws (mkJsError "Error" "boom" (JStr "Error: boom at f") ∅))))))
  = Some JUndefined.
Proof.
  refine (proj2 (stack_only_in_development None sample_env
                   (sample_context "x-request-id" "abc") [] 3
                   (mkJsError "Error" "boom" (JStr "Error: boom at f") ∅)) _).
  discriminate.
Defined.

(** ** The sampling.ts that keeps VIP users *)

(** X21.  The tier-aware [defaultSampling] keeps every event whose
    [user.tier] is ["enterprise"] or ["premium"], whatever the draw; on every
    other event it decides exactly as the [errorCode]-aware one does without
    an [errorCode]; so it keeps whatever that one keeps. *)
Theorem tier_sampling_extends_default (event : WideEvent) (slow : Z) (rate : Q)
    (random : Q) :
  (TierSampling.is_vip event = true ->
   TierSampling.defaultSampling event (TierSampling.mk slow rate) random = true)
  ∧ (TierSampling.is_vip event = false ->
     TierSampling.defaultSampling event (TierSampling.mk slow rate) random
     = defaultSampling event (mkSamplingOptions slow rate None) random)
  ∧ (defaultSampling event (mkSamplingOptions slow rate None) random = true ->
     TierSampling.defaultSampling event (TierSampling.mk slow rate) random = true).
Proof.
  unfold TierSampling.defaultSampling, defaultSampling, is_error_status, is_slow,
    errorThreshold.
  cbn [TierSampling.slowThresholdMs TierSampling.sampleRate slowThresholdMs
       sampleRate errorCode].
  destruct (match status_code event with Some _ => _ | None => _ end);
    [done|].
  destruct (has_error event); [done|].
  destruct (match duration_ms event with Some _ => _ | None => _ end);
    [done|].
  destruct (TierSampling.is_vip event); done.
Qed.

Lemma tier_sampling_extends_default_witness :
  TierSampling.defaultSampling
    (addContext CatUser {["tier" := JStr "enterprise"]} sample_event)
    (TierSampling.mk 2000 (5 # 100)) (1 # 2)
  = true.
Proof.
  exact (proj1 (tier_sampling_extends_default
                  (addContext CatUser {["tier" := JStr "enterprise"]} sample_event)
                  2000 (5 # 100) (1 # 2)) eq_refl).
Defined.

(** ** The example application *)

Lemma memoryStore_after_single (tr : list Effect) (key : string)
    (value : WideEvent) (store : gmap string WideEvent) :
  stores tr = [(key, value)] ->
  memoryStore_after tr store = memoryStore_set key value store.
Proof. intros H. unfold memoryStore_after. by rewrite H. Qed.

(** X22.  Example 3 ([storage: customStorage], [sampleRate: 1.0], default
    logger and policy).  If [console.info] returns and the draw is below 1,
    then after any request, however its handler ends, the store holds the
    request's event under its request id, every other key of the store is as
    before, and the middleware ends the way the handler ended.  A later
    request with the same id therefore replaces the stored event. *)
Theorem example3_event_is_retrievable (env : Env) (c : Context) (h : Handler)
    (store : gmap string WideEvent) :
  (math_random env < 1)%Q ->
  (∀ line : string, Logger.info (console env) line = None) ->
  let run := wideLogger (Some app3_options) env c h in
  let ev := w_event (snd run) in
  let store' := memoryStore_after (w_trace (snd run)) store in
  memoryStore_get (request_id ev) store' = Some ev
  ∧ (∀ k : string, k ≠ request_id ev ->
        memoryStore_get k store' = memoryStore_get k store)
  ∧ fst run = pending h.
Proof.
  intros Hdraw Hconsole. cbv zeta.
  assert (sampling_result env (merge_options env (Some app3_options))
            (finalized_event (Some app3_options) env c h) = Normal true) as Hkeep.
  { by apply middleware_rate_one_keeps. }
  assert (Logger.info (InternalOptions.logger (merge_options env (Some app3_options)))
            (json_stringify env (finalized_event (Some app3_options) env c h))
          = None) as Hinfo.
  { apply Hconsole. }
  rewrite (memoryStore_after_single _
             (resolve_request_id env (merge_options env (Some app3_options)) c)
             (finalized_event (Some app3_options) env c h)).
  2:{ rewrite run_stores, Hkeep, Hinfo. reflexivity. }
  rewrite final_event_is_finalized, finalized_event_request_id, final_completion.
  unfold memoryStore_get, memoryStore_set. split; [|split].
  - apply lookup_insert_eq.
  - intros k Hk. by apply lookup_insert_ne.
  - unfold disposition_result. rewrite Hkeep, Hinfo. reflexivity.
Qed.

Lemma example3_event_is_retrievable_witness :
  let run :=
    wideLogger (Some app3_options) sample_env
      (sample_context "x-request-id" "abc") quick_ok_handler in
  memoryStore_get "abc" (memoryStore_after (w_trace (snd run)) ∅)
  = Some (w_event (snd run)).
Proof.
  cbv zeta.
  refine (proj1 (example3_event_is_retrievable sample_env
                   (sample_context "x-request-id" "abc") quick_ok_handler ∅ _ _)).
  - reflexivity.
  - intros line. reflexivity.
Defined.

(** X23.  Example 4 (the custom policy that keeps POSTs, statuses from 400,
    half of the GETs).  Every POST request is logged, and so is every request
    whose handler throws; a GET answered with a status below 400 is logged
    exactly when the draw is below 0.5. *)
Theorem example4_policy (random : Q) (env : Env) (c : Context) (h : Handler) :
  let w := snd (wideLogger (Some (app4_options random)) env c h) in
  let line := json_stringify env (w_event w) in
  (req_method c = "POST" -> infos (w_trace w) = [line])
  ∧ (∀ e : JsError, h_end h = Throws e -> infos (w_trace w) = [line])
  ∧ (∀ status : Z,
        req_method c = "GET" -> h_end h = Returns status -> (status < 400)%Z ->
        infos (w_trace w) = (if Qltb random (1 # 2) then [line] else [])).
Proof.
  cbv zeta. rewrite run_infos, final_event_is_finalized.
  unfold sampling_result. cbn [merge_options InternalOptions.sampling
                               WideLoggerOptions.sampling app4_options].
  unfold app4_sampling.
  pose proof (finalized_event_captured (Some (app4_options random)) env c h) as Hc.
  assert (method (finalized_event (Some (app4_options random)) env c h)
          = req_method c) as -> by (unfold captured in Hc; cbn in Hc; by inversion Hc).
  destruct (finalized_event_status (Some (app4_options random)) env c h) as [-> _].
  split; [|split].
  - intros ->. reflexivity.
  - intros e ->. by destruct (String.eqb (req_method c) "POST").
  - intros status -> -> Hlt. cbn [String.eqb Ascii.eqb Bool.eqb].
    assert ((400 <=? status)%Z = false) as -> by (by apply Z.leb_gt).
    rewrite andb_false_r. cbn. by destruct (Qltb random (1 # 2)).
Qed.

Lemma example4_policy_witness :
  infos
    (w_trace
       (snd (wideLogger (Some (app4_options (9 # 10))) sample_env
               (mkContext "POST" "/sampling" (fun _ => None) 200)
               quick_ok_handler)))
  = [json_stringify sample_env
       (w_event
          (snd (wideLogger (Some (app4_options (9 # 10))) sample_env
                  (mkContext "POST" "/sampling" (fun _ => None) 200)
                  quick_ok_handler)))].
Proof.
  exact (proj1 (example4_policy (9 # 10) sample_env
                  (mkContext "POST" "/sampling" (fun _ => None) 200)
                  quick_ok_handler) eq_refl).
Defined.

(** * The middleware on any options object and any context data *)

Lemma Full_finally_block_spec (env : Env) (throws : WideEvent -> option JsError)
    (opts : WideLoggerOptions.t) (rid : string) (w : World) :
  Full.finally_block env throws opts rid w =
  (match Full.disposition_result env throws opts rid (w_event w) with
   | Some e => Thrown e
   | None => Normal tt
   end,
   mkWorld (w_event w) (w_clock w) (w_status w)
     (w_trace w ++ Full.disposition_trace env throws opts rid (w_event w))%list).
Proof.
  unfold Full.finally_block, Full.shouldLog, Full.disposition_result,
    Full.disposition_trace, Full.sampling_result, Full.JSON_stringify.
  unfold mbind, M_bind, mret, M_ret, get_event, perform, call, call_void, throw.
  cbn.
  destruct (WideLoggerOptions.sampling opts) as [f|]; cbn;
    [destruct (f (w_event w)) as [[|]|e]
    |destruct (defaultSampling (w_event w) (Full.sampling_options opts)
                 (math_random env))];
    cbn; try reflexivity.
  all: destruct (WideLoggerOptions.logger opts) as [l|]; cbn; [|reflexivity].
  all: destruct (throws (w_event w)); cbn; [reflexivity|].
  all: destruct (Logger.info l _); cbn; [by rewrite <- app_assoc|].
  all: destruct (WideLoggerOptions.storage opts) as [s|]; cbn;
    [destruct (Storage.set s _ _); cbn|]; by rewrite <- !app_assoc.
Qed.

(** The whole run on any input, read off in one equation. *)
Lemma Full_wideLogger_run (options : option OptionsObject.t) (env : Env)
    (throws : WideEvent -> option JsError) (c : Context) (h : Handler) :
  Full.wideLogger options env throws c h =
  let opts := Full.merge_options env options in
  let rid := Full.resolve_request_id env opts c in
  let ev := Full.finalized_event options env c h in
  (match Full.disposition_result env throws opts rid ev with
   | Some e => Thrown e
   | None => pending h
   end,
   mkWorld ev (date_now env + h_elapsed h)
     (match h_end h with Returns status => status | Throws _ => res_status c end)
     ([ESetVar "wide-logger"; EHeader "x-request-id" rid]
        ++ Full.disposition_trace env throws opts rid ev)%list).
Proof.
  unfold Full.wideLogger, try_finally.
  unfold mbind at 1 2, M_bind at 1 2, perform at 1 2.
  cbn [w_event w_clock w_status w_trace app].
  rewrite try_statement_spec. cbn [w_event w_clock w_status w_trace].
  rewrite Full_finally_block_spec. cbn [w_event w_clock w_status w_trace].
  rewrite Z.add_simpl_l.
  unfold Full.finalized_event.
  destruct (h_end h); cbn zeta;
    destruct (Full.disposition_result _ _ _ _ _); reflexivity.
Qed.

(** On an options object without [undefined] or [null] properties, and when
    [JSON.stringify] does not throw, this is the middleware as defined
    first. *)
Lemma Full_wideLogger_agrees (options : option WideLoggerOptions.t) (env : Env)
    (c : Context) (h : Handler) :
  Full.wideLogger (option_map options_object options) env serialisable c h
  = wideLogger options env c h.
Proof.
  rewrite Full_wideLogger_run, wideLogger_run.
  destruct options as [[l st sa sl ra g rh ec]|];
    [destruct l, st, sa, sl, ra, g, rh, ec|]; reflexivity.
Qed.

(** Apart from [logger], a property that holds [undefined] or [null] acts as
    a missing one. *)
Lemma nullish_is_absent_except_logger (env : Env) (o : OptionsObject.t)
    (throws : WideEvent -> option JsError) (c : Context) (h : Handler) :
  Full.wideLogger (Some o) env throws c h
  = Full.wideLogger (Some (unset_all_but_logger o)) env throws c h.
Proof.
  assert (Full.resolve_request_id env (Full.merge_options env (Some o)) c
          = Full.resolve_request_id env
              (Full.merge_options env (Some (unset_all_but_logger o))) c) as Hrid.
  { destruct o as [l st sa sl ra g rh ec]. unfold Full.resolve_request_id.
    destruct rh, g; cbn; try reflexivity.
    all: destruct (req_header c _) as [[|? ?]|]; cbn; try reflexivity.
    all: by destruct (random_uuid env). }
  assert (Full.finalized_event (Some o) env c h
          = Full.finalized_event (Some (unset_all_but_logger o)) env c h) as Hev.
  { unfold Full.finalized_event. by rewrite Hrid. }
  assert (∀ (rid : string) (ev : WideEvent),
            Full.disposition_result env throws (Full.merge_options env (Some o)) rid ev
            = Full.disposition_result env throws
                (Full.merge_options env (Some (unset_all_but_logger o))) rid ev
            ∧ Full.disposition_trace env throws (Full.merge_options env (Some o)) rid ev
              = Full.disposition_trace env throws
                  (Full.merge_options env (Some (unset_all_but_logger o))) rid ev)
    as Hres.
  { intros rid ev. destruct o as [l st sa sl ra g rh ec].
    destruct st, sa, sl, ra, ec; split; reflexivity. }
  rewrite !Full_wideLogger_run. cbv zeta. rewrite <- Hrid, <- Hev.
  by destruct (Hres (Full.resolve_request_id env (Full.merge_options env (Some o)) c)
                 (Full.finalized_event (Some o) env c h)) as [<- <-].
Qed.


Lemma Full_finalized_event_status (options : option OptionsObject.t)
    (env : Env) (c : Context) (h : Handler) :
  status_code (Full.finalized_event options env c h)
  = Some (match h_end h with Returns status => status | Throws _ => 500%Z end)
  ∧ duration_ms (Full.finalized_event options env c h) = Some (h_elapsed h).
Proof.
  unfold Full.finalized_event. cbv zeta.
  destruct (apply_ops _ _ _), (h_end h); by split.
Qed.

Lemma Full_has_error_finalized_success (options : option OptionsObject.t)
    (env : Env) (c : Context) (ops : list HandlerOp) (elapsed status : Z) :
  has_error (Full.finalized_event options env c (mkHandler ops elapsed (Returns status)))
  = existsb is_addError ops.
Proof.
  unfold Full.finalized_event. cbn [h_ops h_end h_elapsed].
  pose proof (has_error_apply_ops env ops
                (initial_event env c
                   (Full.resolve_request_id env (Full.merge_options env options) c)))
    as H.
  cbn [initial_event has_error error] in H. rewrite orb_false_r in H.
  rewrite <- H. by destruct (apply_ops _ _ _).
Qed.


Lemma Full_infos_disposition_trace (env : Env)
    (throws : WideEvent -> option JsError) (opts : WideLoggerOptions.t)
    (rid : string) (event : WideEvent) :
  infos (Full.disposition_trace env throws opts rid event)
  = match Full.sampling_result env opts event with
    | Normal true =>
      if Full.emits throws opts event then [json_stringify env event] else []
    | _ => []
    end.
Proof.
  unfold Full.disposition_trace, Full.emits.
  destruct (Full.sampling_result env opts event) as [[|]|]; cbn; try done.
  destruct (WideLoggerOptions.logger opts) as [l|]; [|done].
  destruct (throws event); [done|]. cbn.
  by destruct (Logger.info l _), (WideLoggerOptions.storage opts).
Qed.

Lemma Full_stores_disposition_trace (env : Env)
    (throws : WideEvent -> option JsError) (opts : WideLoggerOptions.t)
    (rid : string) (event : WideEvent) :
  stores (Full.disposition_trace env throws opts rid event)
  = match Full.sampling_result env opts event,
          WideLoggerOptions.logger opts, throws event with
    | Normal true, Some l, None =>
      match Logger.info l (json_stringify env event),
            WideLoggerOptions.storage opts with
      | None, Some _ => [(rid, event)]
      | _, _ => []
      end
    | _, _, _ => []
    end.
Proof.
  unfold Full.disposition_trace.
  destruct (Full.sampling_result env opts event) as [[|]|]; cbn; try done.
  destruct (WideLoggerOptions.logger opts) as [l|]; [|done].
  destruct (throws event); [done|]. cbn.
  by destruct (Logger.info l _), (WideLoggerOptions.storage opts).
Qed.

(** ** C1: the disposition step, on any input *)



(** [wideLogger({ logger: undefined, storage, sampleRate: 1.0 })]: the
    policy keeps the event, reading [opts.logger.info] throws a TypeError,
    and neither sink is called. *)
Lemma undefined_logger_throws :
  let run :=
    Full.wideLogger (Some undefined_logger_options) sample_env serialisable
      (sample_context "x-request-id" "abc") quick_ok_handler in
  fst run = Thrown type_error
  ∧ samples (w_trace (snd run)) = [w_event (snd run)]
  ∧ infos (w_trace (snd run)) = []
  ∧ stores (w_trace (snd run)) = [].
Proof. cbv zeta. repeat split. Qed.

(** Context data that [JSON.stringify] cannot serialise: the policy keeps the
    event, the serialisation throws, and neither sink is called. *)
Lemma unserialisable_event_is_not_logged :
  let run :=
    Full.wideLogger
      (Some (options_object (log_everything_options None (Some working_storage))))
      sample_env unserialisable (sample_context "x-request-id" "abc")
      quick_ok_handler in
  fst run = Thrown (mkJsError "TypeError" "Do not know how to serialize a BigInt"
                      JUndefined ∅)
  ∧ samples (w_trace (snd run)) = [w_event (snd run)]
  ∧ infos (w_trace (snd run)) = []
  ∧ stores (w_trace (snd run)) = [].
Proof. cbv zeta. repeat split. Qed.

(** ** What the default policy keeps, on any input *)

Lemma Full_run_infos (options : option OptionsObject.t) (env : Env)
    (throws : WideEvent -> option JsError) (c : Context) (h : Handler) :
  infos (w_trace (snd (Full.wideLogger options env throws c h)))
  = match Full.sampling_result env (Full.merge_options env options)
            (Full.finalized_event options env c h) with
    | Normal true =>
      if Full.emits throws (Full.merge_options env options)
           (Full.finalized_event options env c h)
      then [json_stringify env (Full.finalized_event options env c h)]
      else []
    | _ => []
    end.
Proof.
  rewrite Full_wideLogger_run. cbn [snd w_trace app infos].
  apply Full_infos_disposition_trace.
Qed.

Lemma Full_run_stores_nil (options : option OptionsObject.t) (env : Env)
    (throws : WideEvent -> option JsError) (c : Context) (h : Handler) :
  Full.sampling_result env (Full.merge_options env options)
    (Full.finalized_event options env c h) = Normal false
  ∨ Full.emits throws (Full.merge_options env options)
      (Full.finalized_event options env c h) = false ->
  stores (w_trace (snd (Full.wideLogger options env throws c h))) = [].
Proof.
  intros H. rewrite Full_wideLogger_run. cbn [snd w_trace app stores].
  rewrite Full_stores_disposition_trace. unfold Full.emits in H.
  destruct (Full.sampling_result _ _ _) as [[|]|]; try done.
  destruct H as [H|H]; [done|].
  destruct (WideLoggerOptions.logger _); [|done].
  by destruct (throws _).
Qed.

Lemma Full_failure_path_is_sampled (options : option OptionsObject.t)
    (env : Env) (c : Context) (ops : list HandlerOp) (elapsed : Z) (e : JsError) :
  WideLoggerOptions.sampling (Full.merge_options env options) = None ->
  Full.sampling_result env (Full.merge_options env options)
    (Full.finalized_event options env c (mkHandler ops elapsed (Throws e)))
  = Normal true.
Proof.
  intros Hs. unfold Full.sampling_result. rewrite Hs. f_equal.
  unfold defaultSampling.
  destruct (Full_finalized_event_status options env c
              (mkHandler ops elapsed (Throws e))) as [Hst _].
  unfold is_error_status. rewrite Hst. cbn [h_end].
  unfold errorThreshold.
  by destruct (errorCode (Full.sampling_options (Full.merge_options env options)))
    as [[|]|].
Qed.

(** X9.  With the default policy a request whose handler throws is always
    kept: whatever the sample rate, the thresholds and the random draw, the
    policy returns true.  [logger.info] is then called exactly once, with the
    serialized event, when a logger is set and [JSON.stringify(event)]
    returns; when [opts.logger] is [undefined] or the serialisation throws,
    neither sink is called and the middleware throws that error instead of
    the handler's. *)
Theorem thrown_requests_are_always_kept (options : option OptionsObject.t)
    (env : Env) (throws : WideEvent -> option JsError) (c : Context)
    (ops : list HandlerOp) (elapsed : Z) (e : JsError) :
  WideLoggerOptions.sampling (Full.merge_options env options) = None ->
  let opts := Full.merge_options env options in
  let run := Full.wideLogger options env throws c (mkHandler ops elapsed (Throws e)) in
  let w := snd run in
  let ev := w_event w in
  Full.sampling_result env opts ev = Normal true
  ∧ infos (w_trace w)
    = (if Full.emits throws opts ev then [json_stringify env ev] else [])
  ∧ (Full.emits throws opts ev = false ->
     stores (w_trace w) = []
     ∧ fst run = Thrown (match WideLoggerOptions.logger opts, throws ev with
                         | None, _ => type_error
                         | Some _, Some e' => e'
                         | Some _, None => e
                         end)).
Proof.
  intros Hs. cbv zeta.
  pose proof (Full_failure_path_is_sampled options env c ops elapsed e Hs) as Hkeep.
  rewrite Full_run_infos.
  assert (w_event (snd (Full.wideLogger options env throws c
                          (mkHandler ops elapsed (Throws e))))
          = Full.finalized_event options env c (mkHandler ops elapsed (Throws e)))
    as -> by (by rewrite Full_wideLogger_run).
  rewrite Hkeep. split; [done|]. split; [done|].
  intros Hemit. split; [apply Full_run_stores_nil; by right|].
  rewrite Full_wideLogger_run. cbn [fst].
  unfold Full.disposition_result. rewrite Hkeep. unfold Full.emits in Hemit.
  destruct (WideLoggerOptions.logger _); [|done].
  by destruct (throws _).
Qed.

Lemma thrown_requests_are_always_kept_witness :
  infos
    (w_trace
       (snd (Full.wideLogger (Some (options_object rate_zero_options)) sample_env
               serialisable (sample_context "x-request-id" "abc")
               (mkHandler [] 3 (Throws (sample_error "boom"))))))
  = ["{request_id:abc}"].
Proof.
  exact (proj1 (proj2 (thrown_requests_are_always_kept
                         (Some (options_object rate_zero_options)) sample_env
                         serialisable (sample_context "x-request-id" "abc") [] 3
                         (sample_error "boom") eq_refl))).
Defined.

(** X10.  With the default policy, a request whose handler returns is kept
    exactly when one of these holds: the response status is at or above the
    error threshold ([errorCode], else 500); the handler called [addError];
    the elapsed time is not zero and above the slow threshold handed to the
    policy ([opts.slowThresholdMs || 2000]); the random draw is below the
    sample rate handed to the policy ([opts.sampleRate || 0.05]).  A kept
    event is logged, by one [logger.info] call, when a logger is set and
    [JSON.stringify(event)] returns.  When the event is not kept, no sink is
    called and the middleware returns normally. *)
Theorem returned_requests_kept_iff (options : option OptionsObject.t)
    (env : Env) (throws : WideEvent -> option JsError) (c : Context)
    (ops : list HandlerOp) (elapsed status : Z) :
  WideLoggerOptions.sampling (Full.merge_options env options) = None ->
  let opts := Full.merge_options env options in
  let run :=
    Full.wideLogger options env throws c (mkHandler ops elapsed (Returns status)) in
  let w := snd run in
  let ev := w_event w in
  let keep :=
    (errorThreshold (Full.sampling_options opts) <=? status)%Z
    || existsb is_addError ops
    || (negb (elapsed =? 0)%Z
        && (slowThresholdMs (Full.sampling_options opts) <? elapsed)%Z)
    || Qltb (math_random env) (sampleRate (Full.sampling_options opts)) in
  Full.sampling_result env opts ev = Normal keep
  ∧ infos (w_trace w)
    = (if keep && Full.emits throws opts ev then [json_stringify env ev] else [])
  ∧ (keep = false -> stores (w_trace w) = [] ∧ fst run = Normal tt).
Proof.
  intros Hs. cbv zeta.
  set (h := mkHandler ops elapsed (Returns status)).
  assert (w_event (snd (Full.wideLogger options env throws c h))
          = Full.finalized_event options env c h)
    as -> by (by rewrite Full_wideLogger_run).
  assert (Full.sampling_result env (Full.merge_options env options)
            (Full.finalized_event options env c h)
          = Normal
              ((errorThreshold (Full.sampling_options (Full.merge_options env options))
                <=? status)%Z
               || existsb is_addError ops
               || (negb (elapsed =? 0)%Z
                   && (slowThresholdMs
                         (Full.sampling_options (Full.merge_options env options))
                       <? elapsed)%Z)
               || Qltb (math_random env)
                    (sampleRate
                       (Full.sampling_options (Full.merge_options env options)))))
    as Hres.
  { unfold Full.sampling_result. rewrite Hs. f_equal.
    unfold defaultSampling. rewrite is_error_status_spec.
    unfold spec_rule_status, is_slow.
    destruct (Full_finalized_event_status options env c h) as [-> ->].
    subst h. rewrite Full_has_error_finalized_success. cbn [h_end h_elapsed].
    unfold num_truthy.
    by repeat (match goal with |- context [if ?b then _ else _] => destruct b end;
               cbn). }
  split; [exact Hres|]. split.
  - rewrite Full_run_infos, Hres. by destruct (_ || _ || _ || _).
  - intros Hkeep. rewrite Hkeep in Hres. split.
    + apply Full_run_stores_nil. by left.
    + rewrite Full_wideLogger_run. cbn [fst].
      unfold Full.disposition_result. by rewrite Hres.
Qed.

Lemma returned_requests_kept_iff_witness :
  infos
    (w_trace
       (snd (Full.wideLogger None (sample_env_with_draw (1 # 2)) serialisable
               (sample_context "x-request-id" "abc")
               (mkHandler [] 2500 (Returns 200)))))
  = ["{request_id:abc}"].
Proof.
  exact (proj1 (proj2 (returned_requests_kept_iff None (sample_env_with_draw (1 # 2))
                         serialisable (sample_context "x-request-id" "abc")
                         [] 2500 200 eq_refl))).
Defined.

(** ** C2: the slow rule at zero *)

(** C2, the code at its two falsy zeros.  Called with
    [{ slowThresholdMs: -1, sampleRate: 0 }] on a finalized event that took
    0 ms, [defaultSampling] returns false although [0 > -1]: the test
    [event.duration_ms && ...] takes the duration 0 for a missing one.  And a
    middleware configured with [slowThresholdMs: 0] hands the policy the
    threshold 2000 ([opts.slowThresholdMs || 2000]), so a request that took
    5 ms, answered 200, with a draw of 0.5, is not logged although [5 > 0]. *)
Theorem slow_rule_slips_at_zero :
  (let event := set_duration_ms 0 (set_status_code 200 sample_event) in
   let options := mkSamplingOptions (-1) 0 None in
   duration_ms event = Some 0%Z
   ∧ spec_rule_slow event options = true
   ∧ spec_sampling event options (1 # 2) = true
   ∧ defaultSampling event options (1 # 2) = false)
  ∧ (let env := sample_env_with_draw (1 # 2) in
     let opts := merge_options env (Some slow_zero_options) in
     let run :=
       wideLogger (Some slow_zero_options) env (sample_context "x-request-id" "abc")
         (mkHandler [] 5 (Returns 200)) in
     InternalOptions.slowThresholdMs opts = 0%Z
     ∧ slowThresholdMs (sampling_options opts) = 2000%Z
     ∧ duration_ms (w_event (snd run)) = Some 5%Z
     ∧ spec_rule_slow (w_event (snd run)) (mkSamplingOptions 0 (5 # 100) None) = true
     ∧ infos (w_trace (snd run)) = []).
Proof. cbv zeta. repeat split. Qed.
